(** * pdftoqa: the processing pipeline of the backend, embedded in Rocq

    Sources embedded here:
    - [Backend/app/services/text_service.py]  (the three chunkers)
    - [Backend/app/services/pdf_service.py]   (text extraction, OCR fallback)
    - [Backend/app/services/qa_service.py]    (providers, generation loop)
    - [Backend/app/routers/pdf.py]            (cancel endpoint, background job)

    Python [str] values are Rocq strings whose characters are read as the
    code points 0..255; Python [int]s are [Z]; the relational store is a
    finite map from document ids to rows plus the list of Q&A rows. *)

From Stdlib Require Import ZArith Ascii String Lia.
From stdpp Require Import gmap strings list pretty.

Local Open Scope Z_scope.

(** ** Python string primitives *)

Module PyStr.

Definition chars (s : string) : list ascii := list_ascii_of_string s.
Definition text (l : list ascii) : string := string_of_list_ascii l.

Definition nl : ascii := "010"%char.
Definition NL : string := String nl EmptyString.

(** [str.isspace] on one character (and the class [\s] of [re] on [str]
    patterns), for code points below 256. *)
Definition isspace (c : ascii) : bool :=
  match c with
  | "009" | "010" | "011" | "012" | "013"
  | "028" | "029" | "030" | "031" | " "
  | "133" | "160" => true
  | _ => false
  end%char.

Fixpoint lstrip (l : list ascii) : list ascii :=
  match l with
  | c :: l' => if isspace c then lstrip l' else l
  | [] => []
  end.

Definition rstrip (l : list ascii) : list ascii := rev (lstrip (rev l)).

(** [s.strip()] *)
Definition strip_chars (l : list ascii) : list ascii := rstrip (lstrip l).
Definition strip (s : string) : string := text (strip_chars (chars s)).

(** [len(s)] *)
Definition len (s : string) : Z := Z.of_nat (length (chars s)).

(** [l[lo:hi]] with Python's treatment of negative and out-of-range
    bounds. *)
Definition norm_index (n i : Z) : Z :=
  if i <? 0 then Z.max (i + n) 0 else Z.min i n.

Definition slice {A} (l : list A) (lo hi : Z) : list A :=
  let n := Z.of_nat (length l) in
  let lo' := norm_index n lo in
  let hi' := norm_index n hi in
  take (Z.to_nat (hi' - lo')) (drop (Z.to_nat lo') l).

Definition substr (s : string) (lo hi : Z) : string :=
  text (slice (chars s) lo hi).

(** [s.split()]: maximal runs of non-whitespace characters. [cur] holds
    the run being read, reversed. *)
Definition flush (cur : list ascii) : list (list ascii) :=
  match cur with [] => [] | _ => [rev cur] end.

Fixpoint split_go (cur : list ascii) (l : list ascii) : list (list ascii) :=
  match l with
  | [] => flush cur
  | c :: l' =>
      if isspace c then flush cur ++ split_go [] l'
      else split_go (c :: cur) l'
  end.

Definition split_chars (l : list ascii) : list (list ascii) := split_go [] l.
Definition split (s : string) : list string := text <$> split_chars (chars s).

(** [s.split(sep)] for a one-character separator: always at least one
    field. *)
Fixpoint split_on_go (sep : ascii) (cur : list ascii) (l : list ascii)
  : list (list ascii) :=
  match l with
  | [] => [rev cur]
  | c :: l' =>
      if Ascii.eqb c sep then rev cur :: split_on_go sep [] l'
      else split_on_go sep (c :: cur) l'
  end.

Definition split_on (sep : ascii) (s : string) : list string :=
  text <$> split_on_go sep [] (chars s).

(** [sep.join(parts)] *)
Fixpoint join_chars (sep : list ascii) (parts : list (list ascii)) : list ascii :=
  match parts with
  | [] => []
  | [p] => p
  | p :: rest => p ++ sep ++ join_chars sep rest
  end.

Definition join (sep : string) (parts : list string) : string :=
  text (join_chars (chars sep) (chars <$> parts)).

(** [s.endswith((a, b))] for one-character suffixes *)
Definition endswith_any (suffixes : list ascii) (s : string) : bool :=
  match rev (chars s) with
  | c :: _ => existsb (Ascii.eqb c) suffixes
  | [] => false
  end.

(** [range(0, stop, step)] for a positive step; the fuel [stop] is enough
    because every iteration advances by at least one. *)
Fixpoint range_go (fuel : nat) (i stop step : Z) : list Z :=
  match fuel with
  | O => []
  | S fuel' => if i <? stop then i :: range_go fuel' (i + step) stop step else []
  end.

Definition range0 (stop step : Z) : list Z :=
  if 0 <? step then range_go (Z.to_nat stop) 0 stop step else [].

End PyStr.

(** ** Exceptions and results *)

Inductive exn : Type :=
| ValueError (msg : string)
| TypeError (msg : string)
| AttributeError (msg : string)
| KeyError (key : string)
| HTTPException (status_code : Z) (detail : string)
| ExternalError (msg : string).

(** [str(e)] *)
Definition exn_str (e : exn) : string :=
  match e with
  | ValueError m | TypeError m | AttributeError m | ExternalError m => m
  | KeyError k => "'" +:+ k +:+ "'"
  | HTTPException c d => pretty c +:+ ": " +:+ d
  end.

Inductive result (A : Type) : Type :=
| Ok (a : A)
| Raise (e : exn).
Arguments Ok {A} a.
Arguments Raise {A} e.

Definition rbind {A B} (r : result A) (f : A -> result B) : result B :=
  match r with
  | Ok a => f a
  | Raise e => Raise e
  end.

(** [try: body  except Exception as e: handler(e)] *)
Definition try_except {A} (body : result A) (handler : exn -> result A) : result A :=
  match body with
  | Ok a => Ok a
  | Raise e => handler e
  end.

Declare Scope result_scope.
Delimit Scope result_scope with result.
Notation "x <- r ;; k" := (rbind r (fun x => k))
  (at level 100, r at next level, right associativity) : result_scope.

(** ** The fragment of Python's [re] used by the chunkers

    A backtracking matcher with Python's priorities: alternatives are tried
    left to right, a greedy quantifier tries the longest repetition first
    and a lazy one the shortest. Quantifiers apply to single-character
    atoms, which is all the source's patterns need. No flag is set, so [^]
    matches at position 0 only, [$] at the end of the text or before a
    final newline, and [.] any character but the newline. *)

Module Re.
Import PyStr.

Inductive citem : Type :=
| ILit (c : ascii)
| IRange (lo hi : ascii)
| ISpace.

Inductive atom : Type :=
| ALit (c : ascii)
| ADot
| ASpace
| ADigit
| ASet (items : list citem).

Definition in_range (lo hi c : ascii) : bool :=
  (N_of_ascii lo <=? N_of_ascii c)%N && (N_of_ascii c <=? N_of_ascii hi)%N.

Definition citem_matches (i : citem) (c : ascii) : bool :=
  match i with
  | ILit c' => Ascii.eqb c c'
  | IRange lo hi => in_range lo hi c
  | ISpace => isspace c
  end.

Definition atom_matches (a : atom) (c : ascii) : bool :=
  match a with
  | ALit c' => Ascii.eqb c c'
  | ADot => negb (Ascii.eqb c nl)
  | ASpace => isspace c
  | ADigit => in_range "0" "9" c
  | ASet items => existsb (fun i => citem_matches i c) items
  end.

Inductive regex : Type :=
| REps
| RAtom (a : atom)
| RBol
| REol
| RSeq (r1 r2 : regex)
| RAlt (r1 r2 : regex)
| RPlus (greedy : bool) (a : atom)
| RStar (greedy : bool) (a : atom)
| RGroup (r : regex).

(** A matcher state is the position reached and the text still ahead;
    the continuation [k] is the rest of the pattern. *)
Definition cont : Type := nat -> list ascii -> option nat.

Fixpoint rstar (greedy : bool) (a : atom) (pos : nat) (rest : list ascii)
         (k : cont) : option nat :=
  match rest with
  | c :: rest' =>
      if atom_matches a c then
        if greedy then
          match rstar greedy a (S pos) rest' k with
          | Some e => Some e
          | None => k pos rest
          end
        else
          match k pos rest with
          | Some e => Some e
          | None => rstar greedy a (S pos) rest' k
          end
      else k pos rest
  | [] => k pos rest
  end.

Definition at_eol (rest : list ascii) : bool :=
  match rest with
  | [] => true
  | [c] => Ascii.eqb c nl
  | _ => false
  end.

Fixpoint rmatch (r : regex) (pos : nat) (rest : list ascii) (k : cont)
  : option nat :=
  match r with
  | REps => k pos rest
  | RAtom a =>
      match rest with
      | c :: rest' => if atom_matches a c then k (S pos) rest' else None
      | [] => None
      end
  | RBol => if Nat.eqb pos 0 then k pos rest else None
  | REol => if at_eol rest then k pos rest else None
  | RSeq r1 r2 => rmatch r1 pos rest (fun pos' rest' => rmatch r2 pos' rest' k)
  | RAlt r1 r2 =>
      match rmatch r1 pos rest k with
      | Some e => Some e
      | None => rmatch r2 pos rest k
      end
  | RPlus greedy a =>
      match rest with
      | c :: rest' =>
          if atom_matches a c then rstar greedy a (S pos) rest' k else None
      | [] => None
      end
  | RStar greedy a => rstar greedy a pos rest k
  | RGroup r' => rmatch r' pos rest k
  end.

(** One match attempt anchored at [pos]: the end of the match. *)
Definition match_at (r : regex) (pos : nat) (rest : list ascii) : option nat :=
  rmatch r pos rest (fun e _ => Some e).

(** [re.finditer]: the spans [(start, end)] of the leftmost
    non-overlapping matches. After a match the search resumes at its end:
    [skip] counts the characters of the match still to pass. (After an
    empty match the search moves one character on.) *)
Fixpoint scan (r : regex) (pos : nat) (rest : list ascii) (skip : nat)
  : list (nat * nat) :=
  match skip with
  | S skip' =>
      match rest with
      | _ :: rest' => scan r (S pos) rest' skip'
      | [] => []
      end
  | O =>
      match match_at r pos rest with
      | Some e =>
          (pos, e) ::
          match rest with
          | _ :: rest' => scan r (S pos) rest' (e - pos - 1)
          | [] => []
          end
      | None =>
          match rest with
          | _ :: rest' => scan r (S pos) rest' 0
          | [] => []
          end
      end
  end.

Definition finditer (r : regex) (s : string) : list (nat * nat) :=
  scan r 0 (chars s) 0.

(** Pattern combinators *)
Fixpoint seqs (rs : list regex) : regex :=
  match rs with
  | [] => REps
  | [r] => r
  | r :: rs' => RSeq r (seqs rs')
  end.

Definition lit (s : string) : regex := seqs (RAtom ∘ ALit <$> chars s).

End Re.

(** ** text_service.py *)

Record Chunk : Type := mkChunk { heading : string; content : string }.

Module TextService.
Import PyStr Re.

(** The three heading patterns of [chunk_by_headings], in the order of
    the source list:
    - [(?:\n|^)#+\s+(.+?)(?:\n|$)]
    - [(?:\n|^)(?:CHAPTER|Section)\s+\d+[.:]\s*(.+?)(?:\n|$)]
    - [(?:\n|^)(?:[A-Z][A-Za-z\s]+)(?:\n|$)] *)
Definition nl_or_bol : regex := RGroup (RAlt (RAtom (ALit nl)) RBol).
Definition nl_or_eol : regex := RGroup (RAlt (RAtom (ALit nl)) REol).

Definition markdown_heading : regex :=
  seqs [nl_or_bol; RPlus true (ALit "#"); RPlus true ASpace;
        RGroup (RPlus false ADot); nl_or_eol].

Definition chapter_heading : regex :=
  seqs [nl_or_bol; RGroup (RAlt (lit "CHAPTER") (lit "Section"));
        RPlus true ASpace; RPlus true ADigit;
        RAtom (ASet [ILit "."; ILit ":"]); RStar true ASpace;
        RGroup (RPlus false ADot); nl_or_eol].

Definition caps_heading : regex :=
  seqs [nl_or_bol;
        RGroup (RSeq (RAtom (ASet [IRange "A" "Z"]))
                     (RPlus true (ASet [IRange "A" "Z"; IRange "a" "z"; ISpace])));
        nl_or_eol].

(** ['|'.join(f'({p})' for p in patterns)] *)
Definition combined_pattern : regex :=
  RAlt (RGroup markdown_heading)
       (RAlt (RGroup chapter_heading) (RGroup caps_heading)).

(** The loop state of [chunk_by_headings]:
    [(chunks, last_end, current_heading)]. *)
Definition hstate : Type := list Chunk * nat * string.

Definition nonempty (s : string) : bool :=
  match s with EmptyString => false | _ => true end.

Definition heading_step (text : string) (st : hstate) (m : nat * nat) : hstate :=
  let '(chunks, last_end, current_heading) := st in
  let '(start, stop) := m in
  let heading_text := strip (substr text (Z.of_nat start) (Z.of_nat stop)) in
  let chunks' :=
    if (last_end <? start)%nat then
      let chunk_text := strip (substr text (Z.of_nat last_end) (Z.of_nat start)) in
      if nonempty chunk_text
      then chunks ++ [mkChunk current_heading chunk_text]
      else chunks
    else chunks in
  (chunks', stop, heading_text).

Definition final_chunk (text : string) (st : hstate) : list Chunk :=
  let '(chunks, last_end, current_heading) := st in
  if Z.of_nat last_end <? len text then
    chunks ++ [mkChunk current_heading
                       (strip (substr text (Z.of_nat last_end) (len text)))]
  else chunks.

Definition chunks_of_matches (text : string) (ms : list (nat * nat)) : list Chunk :=
  final_chunk text (fold_left (heading_step text) ms ([], 0%nat, "Introduction")).

Definition chunk_by_headings (text : string) : list Chunk :=
  chunks_of_matches text (finditer combined_pattern text).

(** The title search of [chunk_by_size]: the first of the first five
    lines that, stripped, has more than 10 and fewer than 100 characters
    and ends in a colon or a full stop. *)
Definition is_title (line : string) : bool :=
  (10 <? len line) && (len line <? 100) && endswith_any [":"; "."]%char line.

Definition potential_title (chunk_text : string) : option string :=
  head (filter (fun line => is_title line = true)
               (strip <$> take 5 (split_on nl chunk_text))).

Definition size_chunk (tokens : list string) (max_tokens : Z)
           (chunks : list Chunk) (i : Z) : list Chunk :=
  let chunk_text := join " " (slice tokens i (i + max_tokens)) in
  let title :=
    match potential_title chunk_text with
    | Some t => t
    | None => "Chunk " +:+ pretty (Z.of_nat (length chunks) + 1)
    end in
  chunks ++ [mkChunk title chunk_text].

(** [chunk_by_size(text, max_tokens, overlap)]; [range] raises when the
    step is zero. *)
Definition chunk_by_size (text : string) (max_tokens overlap : Z)
  : result (list Chunk) :=
  let tokens := split text in
  let step := max_tokens - overlap in
  if step =? 0 then Raise (ValueError "range() arg 3 must not be zero")
  else Ok (fold_left (size_chunk tokens max_tokens)
                     (range0 (Z.of_nat (length tokens)) step) []).


(** [re.split(r'\n\s*\n', text)]: the pieces between the matches *)
Definition blank_line : regex :=
  seqs [RAtom (ALit nl); RStar true ASpace; RAtom (ALit nl)].

Fixpoint pieces (text : string) (from : nat) (ms : list (nat * nat)) : list string :=
  match ms with
  | [] => [substr text (Z.of_nat from) (len text)]
  | (start, stop) :: ms' =>
      substr text (Z.of_nat from) (Z.of_nat start) :: pieces text stop ms'
  end.

Definition re_split (r : regex) (text : string) : list string :=
  pieces text 0 (finditer r text).

(** The loop state of [chunk_by_paragraphs]:
    [(chunks, current_chunk, current_heading)]. *)
Definition paragraph_step (min_length : Z) (st : list Chunk * string * string)
           (para : string) : list Chunk * string * string :=
  let '(chunks, current_chunk, current_heading) := st in
  let para := strip para in
  if negb (nonempty para) then st
  else if (len para <? 100) && endswith_any [":"; "."]%char para
  then (chunks, "", para)
  else
    let current_chunk := current_chunk +:+ para +:+ NL +:+ NL in
    if min_length <=? len current_chunk
    then (chunks ++ [mkChunk current_heading (strip current_chunk)], "", current_heading)
    else (chunks, current_chunk, current_heading).

Definition chunk_by_paragraphs (text : string) (min_length : Z) : list Chunk :=
  let '(chunks, current_chunk, current_heading) :=
    fold_left (paragraph_step min_length) (re_split blank_line text) ([], "", "Text") in
  if nonempty current_chunk
  then chunks ++ [mkChunk current_heading (strip current_chunk)]
  else chunks.

(** [chunk_text(text, strategy)], the sized and the paragraph chunker
    with their default arguments *)
Definition chunk_text (text : string) (strategy : string) : result (list Chunk) :=
  if String.eqb strategy "semantic" then Ok (chunk_by_headings text)
  else if String.eqb strategy "fixed" then chunk_by_size text 1000 100
  else Ok (chunk_by_paragraphs text 200).

End TextService.

(** ** Python objects decoded from JSON *)

#[local] Set Warnings "-register-all".

Inductive json : Type :=
| JNull
| JBool (b : bool)
| JInt (z : Z)
| JFloat (literal : string)
| JStr (s : string)
| JList (items : list json)
| JDict (fields : list (string * json)).

Module PyObj.

Definition type_name (v : json) : string :=
  match v with
  | JNull => "NoneType"
  | JBool _ => "bool"
  | JInt _ => "int"
  | JFloat _ => "float"
  | JStr _ => "str"
  | JList _ => "list"
  | JDict _ => "dict"
  end.

Fixpoint assoc (key : string) (fields : list (string * json)) : option json :=
  match fields with
  | [] => None
  | (k, v) :: rest => if String.eqb k key then Some v else assoc key rest
  end.

Fixpoint assoc_set (key : string) (x : json) (fields : list (string * json))
  : list (string * json) :=
  match fields with
  | [] => [(key, x)]
  | (k, v) :: rest =>
      if String.eqb k key then (k, x) :: rest else (k, v) :: assoc_set key x rest
  end.

Definition no_attribute (v : json) (attr : string) : exn :=
  AttributeError ("'" +:+ type_name v +:+ "' object has no attribute '" +:+ attr +:+ "'").

(** [v.get(key, default)] *)
Definition get (v : json) (key : string) (default : json) : result json :=
  match v with
  | JDict fields => Ok (from_option id default (assoc key fields))
  | _ => Raise (no_attribute v "get")
  end.

(** [v[key]] for a string key *)
Definition getitem (v : json) (key : string) : result json :=
  match v with
  | JDict fields =>
      match assoc key fields with
      | Some x => Ok x
      | None => Raise (KeyError key)
      end
  | JList _ => Raise (TypeError "list indices must be integers or slices, not str")
  | JStr _ => Raise (TypeError "string indices must be integers, not 'str'")
  | _ => Raise (TypeError ("'" +:+ type_name v +:+ "' object is not subscriptable"))
  end.

(** [v[key] = x] for a string key *)
Definition setitem (v : json) (key : string) (x : json) : result json :=
  match v with
  | JDict fields => Ok (JDict (assoc_set key x fields))
  | JList _ => Raise (TypeError "list indices must be integers or slices, not str")
  | _ => Raise (TypeError ("'" +:+ type_name v +:+ "' object does not support item assignment"))
  end.

(** [for x in v]: the elements of a list, the keys of a dict, the
    characters of a string. *)
Definition iter (v : json) : result (list json) :=
  match v with
  | JList items => Ok items
  | JDict fields => Ok ((fun kv => JStr (fst kv)) <$> fields)
  | JStr s => Ok ((fun c => JStr (String c EmptyString)) <$> PyStr.chars s)
  | _ => Raise (TypeError ("'" +:+ type_name v +:+ "' object is not iterable"))
  end.

(** [v == s] for a string literal [s] *)
Definition eq_str (v : json) (s : string) : bool :=
  match v with
  | JStr s' => String.eqb s' s
  | _ => false
  end.

(** [s.find(c)] and [s.rfind(c)] for a one-character needle *)
Fixpoint find_go (c : ascii) (l : list ascii) (i : Z) : Z :=
  match l with
  | [] => -1
  | x :: l' => if Ascii.eqb x c then i else find_go c l' (i + 1)
  end.

Definition find (c : ascii) (s : string) : Z := find_go c (PyStr.chars s) 0.

Fixpoint rfind_go (c : ascii) (l : list ascii) (i : Z) (last : Z) : Z :=
  match l with
  | [] => last
  | x :: l' => rfind_go c l' (i + 1) (if Ascii.eqb x c then i else last)
  end.

Definition rfind (c : ascii) (s : string) : Z := rfind_go c (PyStr.chars s) 0 (-1).

Fixpoint mapM {A B} (f : A -> result B) (l : list A) : result (list B) :=
  match l with
  | [] => Ok []
  | a :: l' =>
      match f a with
      | Raise e => Raise e
      | Ok b =>
          match mapM f l' with
          | Raise e => Raise e
          | Ok bs => Ok (b :: bs)
          end
      end
  end.

End PyObj.

(** ** The rows of the store (models/pdf.py) and the status reply *)

Module PDF.
Record t : Type := mk {
  id : string;
  filename : string;
  original_name : string;
  file_path : string;
  page_count : option Z;
  status : string;
  progress : Z;
  error : option string
}.

Definition set_status (s : string) (p : t) : t :=
  mk (id p) (filename p) (original_name p) (file_path p) (page_count p)
     s (progress p) (error p).
Definition set_progress (n : Z) (p : t) : t :=
  mk (id p) (filename p) (original_name p) (file_path p) (page_count p)
     (status p) n (error p).
Definition set_error (e : string) (p : t) : t :=
  mk (id p) (filename p) (original_name p) (file_path p) (page_count p)
     (status p) (progress p) (Some e).
Definition set_page_count (n : Z) (p : t) : t :=
  mk (id p) (filename p) (original_name p) (file_path p) (Some n)
     (status p) (progress p) (error p).
End PDF.

Module QAPair.
Record t : Type := mk {
  pdf_id : string;
  question : json;
  answer : json;
  section : json;
  page_number : option Z;
  confidence : option Z;
  meta_data : json
}.
End QAPair.

Module PDFStatus.
Record t : Type := mk {
  id : string;
  status : string;
  progress : Z;
  message : string
}.
End PDFStatus.

(** The store as one session sees it. Rows added with [db.add] are taken
    as stored at once: every path that adds rows commits them. *)
Record Session : Type := mkSession {
  pdfs : gmap string PDF.t;
  qa_pairs : list QAPair.t
}.

Definition update_pdf (pdf_id : string) (f : PDF.t -> PDF.t) (db : Session) : Session :=
  mkSession (alter f pdf_id (pdfs db)) (qa_pairs db).

Definition add_row (row : QAPair.t) (db : Session) : Session :=
  mkSession (pdfs db) (qa_pairs db ++ [row]).

Definition status_of (pdf_id : string) (db : Session) : option string :=
  PDF.status <$> pdfs db !! pdf_id.

Definition progress_of (pdf_id : string) (db : Session) : option Z :=
  PDF.progress <$> pdfs db !! pdf_id.

(** The status tags. [generating i n] is the persisted form of
    [Generating(i, n)]. *)
Definition generating (i n : Z) : string :=
  "analyzing_chunk_" +:+ pretty i +:+ "_of_" +:+ pretty n.

Definition terminal (s : string) : bool :=
  bool_decide (s ∈ ["completed"; "failed"; "canceled"]).

(** What the network gives back to one [client.post]: the call itself
    raises (no connection, timeout), or a response arrives whose
    [raise_for_status()] and [json()] each return or raise. *)
Inductive http_outcome : Type :=
| PostRaises (e : exn)
| PostReturns (raise_for_status : result unit) (body : result json).

(** External calls made by the extractor, in the order made. *)
Inductive ext_call : Type :=
| Pdfminer (path : string)
| ConvertFromPath (path : string)
| ImageToString (page_index : nat)
| PdfReader (path : string)
| WriteText (path : string).

(** ** The services and the router

    What the code gets from outside the repository is a variable of this
    section: the JSON decoder, the double-precision arithmetic of the
    progress formula, and the PDF and OCR libraries with the file system
    behind them. *)

Section Pipeline.

(** [json.loads] *)
Variable json_loads : string -> result json.

(** [int((i / total_chunks) * 40)], computed in double precision *)
Variable scaled_progress : Z -> Z -> Z.

(** [pdfminer.high_level.extract_text], [pdf2image.convert_from_path],
    [pytesseract.image_to_string], [len(PyPDF2.PdfReader(f).pages)] and
    the write of the result file *)
Variable Image : Type.
Variable pdfminer_extract_text : string -> result string.
Variable convert_from_path : string -> result (list Image).
Variable image_to_string : Image -> result string.
Variable count_pages : string -> result Z.
Variable write_text : string -> string -> result unit.

(** *** qa_service.py: ModelProvider *)

(** [context.get("heading", "Text") if context else "Text"] *)
Definition section_heading_of (context : option (gmap string string)) : string :=
  match context with
  | Some d => if decide (d = ∅) then "Text" else default "Text" (d !! "heading")
  | None => "Text"
  end.

(** The pair returned by both [except] handlers. *)
Definition error_pair (e : exn) (section_heading : string) : json :=
  JDict [("question", JStr "Error generating Q&A");
         ("answer", JStr ("API error: " +:+ exn_str e));
         ("type", JStr "error");
         ("section", JStr section_heading)].

(** [json.loads(v)] for an object that need not be a string *)
Definition loads (v : json) : result json :=
  match v with
  | JStr s => json_loads s
  | _ => Raise (TypeError ("the JSON object must be str, bytes or bytearray, not "
                           +:+ PyObj.type_name v))
  end.

(** [for pair in qa_pairs: pair["section"] = section_heading] *)
Definition stamp_section (section_heading : string) (qa_pairs : json)
  : result (list json) :=
  rbind (PyObj.iter qa_pairs)
        (PyObj.mapM (fun pair => PyObj.setitem pair "section" (JStr section_heading))).

(** [client.post(...)], [response.raise_for_status()], [response.json()] *)
Definition post_json (post : http_outcome) : result json :=
  match post with
  | PostRaises e => Raise e
  | PostReturns status body => rbind status (fun _ => body)
  end.

(** [next((block.get("text") for block in content
          if block.get("type") == "text"), "[]")] *)
Fixpoint first_text (blocks : list json) : result json :=
  match blocks with
  | [] => Ok (JStr "[]")
  | block :: rest =>
      rbind (PyObj.get block "type" JNull) (fun ty =>
        if PyObj.eq_str ty "text" then PyObj.get block "text" JNull
        else first_text rest)
  end.

(** The [try] block of [_generate_with_claude] *)
Definition claude_try (post : http_outcome) (section_heading : string)
  : result (list json) :=
  (result_ <- post_json post ;;
   content_ <- PyObj.get result_ "content" (JList []) ;;
   blocks <- PyObj.iter content_ ;;
   text_content <- first_text blocks ;;
   qa <- loads text_content ;;
   stamp_section section_heading qa)%result.

Definition _generate_with_claude (environ : gmap string string)
           (post : http_outcome) (text_chunk : string)
           (context : option (gmap string string)) : result (list json) :=
  match environ !! "ANTHROPIC_API_KEY" with
  | None | Some EmptyString =>
      Raise (ValueError "ANTHROPIC_API_KEY not set in environment")
  | Some _ =>
      let section_heading := section_heading_of context in
      try_except (claude_try post section_heading)
                 (fun e => Ok [error_pair e section_heading])
  end.

(** The span selection of [_generate_with_ollama] *)
Definition clean_json (generation : json) : result string :=
  match generation with
  | JStr g =>
      let json_start := PyObj.find "[" g in
      let json_end := PyObj.rfind "]" g + 1 in
      if (0 <=? json_start) && (json_start <? json_end)
      then Ok (PyStr.substr g json_start json_end)
      else Raise (ValueError "Could not find valid JSON in response")
  | _ => Raise (PyObj.no_attribute generation "find")
  end.

(** The [try] block of [_generate_with_ollama] *)
Definition ollama_try (post : http_outcome) (section_heading : string)
  : result (list json) :=
  (result_ <- post_json post ;;
   generation <- PyObj.get result_ "response" (JStr "[]") ;;
   span <- clean_json generation ;;
   qa <- json_loads span ;;
   stamp_section section_heading qa)%result.

Definition _generate_with_ollama (environ : gmap string string)
           (post : http_outcome) (text_chunk : string)
           (context : option (gmap string string)) : result (list json) :=
  let section_heading := section_heading_of context in
  try_except (ollama_try post section_heading)
             (fun e => Ok [error_pair e section_heading]).

Definition generate_qa_pairs (provider : string) (environ : gmap string string)
           (post : http_outcome) (text_chunk : string)
           (context : option (gmap string string)) : result (list json) :=
  if String.eqb provider "claude"
  then _generate_with_claude environ post text_chunk context
  else if String.eqb provider "ollama"
  then _generate_with_ollama environ post text_chunk context
  else Raise (ValueError ("Unsupported provider: " +:+ provider)).

(** *** qa_service.py: QAService *)

(** The rows built from one chunk's pairs, added one by one; a pair
    without a question or an answer raises [KeyError] after the rows
    before it were added. *)
Definition make_row (pdf_id : string) (chunk : Chunk) (qa : json)
  : result QAPair.t :=
  (q <- PyObj.getitem qa "question" ;;
   a <- PyObj.getitem qa "answer" ;;
   sec <- PyObj.get qa "section" (JStr (heading chunk)) ;;
   ty <- PyObj.get qa "type" (JStr "unknown") ;;
   Ok (QAPair.mk pdf_id q a sec None None (JDict [("type", ty)])))%result.

Fixpoint add_pairs (pdf_id : string) (chunk : Chunk) (pairs : list json)
         (db : Session) : Session * result (list QAPair.t) :=
  match pairs with
  | [] => (db, Ok [])
  | qa :: rest =>
      match make_row pdf_id chunk qa with
      | Raise e => (db, Raise e)
      | Ok row =>
          match add_pairs pdf_id chunk rest (add_row row db) with
          | (db', Ok rows) => (db', Ok (row :: rows))
          | (db', Raise e) => (db', Raise e)
          end
      end
  end.

Inductive loop_exit : Type :=
| SawCanceled
| RanOut (all_qa_pairs : list QAPair.t).

(** The [for i, chunk in enumerate(chunks)] loop. [net i] is what the
    network returns to the call made for chunk [i]; [during i] is what
    other sessions commit while that call is awaited. *)
Fixpoint qa_loop (provider : string) (environ : gmap string string)
         (net : nat -> http_outcome) (during : nat -> Session -> Session)
         (pdf_id : string) (total_chunks : Z) (i : nat) (chunks : list Chunk)
         (all_qa_pairs : list QAPair.t) (db : Session)
  : Session * result loop_exit :=
  match chunks with
  | [] => (db, Ok (RanOut all_qa_pairs))
  | chunk :: rest =>
      match pdfs db !! pdf_id with
      | None => (db, Raise (AttributeError "'NoneType' object has no attribute 'status'"))
      | Some pdf =>
          if String.eqb (PDF.status pdf) "canceled" then (db, Ok SawCanceled)
          else
            let progress := 50 + scaled_progress (Z.of_nat i) total_chunks in
            let db1 :=
              update_pdf pdf_id
                (fun p => PDF.set_status (generating (Z.of_nat i + 1) total_chunks)
                                         (PDF.set_progress progress p)) db in
            match generate_qa_pairs provider environ (net i) (content chunk)
                                    (Some {[ "heading" := heading chunk ]}) with
            | Raise e => (db1, Raise e)
            | Ok pairs =>
                match add_pairs pdf_id chunk pairs (during i db1) with
                | (db2, Raise e) => (db2, Raise e)
                | (db2, Ok rows) =>
                    qa_loop provider environ net during pdf_id total_chunks
                            (S i) rest (all_qa_pairs ++ rows) db2
                end
            end
      end
  end.

Definition generate_qa_from_chunks (provider : string)
           (environ : gmap string string) (net : nat -> http_outcome)
           (during : nat -> Session -> Session)
           (chunks : list Chunk) (pdf_id : string) (db : Session)
  : Session * result (list QAPair.t) :=
  match pdfs db !! pdf_id with
  | None => (db, Raise (ValueError ("PDF with ID " +:+ pdf_id +:+ " not found")))
  | Some _ =>
      match qa_loop provider environ net during pdf_id
                    (Z.of_nat (length chunks)) 0 chunks [] db with
      | (db', Raise e) => (db', Raise e)
      | (db', Ok SawCanceled) => (db', Ok [])
      | (db', Ok (RanOut all_qa_pairs)) =>
          (update_pdf pdf_id
             (fun p => PDF.set_progress 100 (PDF.set_status "completed" p)) db',
           Ok all_qa_pairs)
      end
  end.

(** *** pdf_service.py: PDFService *)

(** A computation that makes external calls: the calls made, in order,
    and its result. *)
Definition traced (A : Type) : Type := list ext_call * result A.

Definition tret {A} (a : A) : traced A := ([], Ok a).

Definition call {A} (ev : ext_call) (r : result A) : traced A := ([ev], r).

Definition tbind {A B} (m : traced A) (f : A -> traced B) : traced B :=
  match m with
  | (t, Ok a) => let '(t', r) := f a in (t ++ t', r)
  | (t, Raise e) => (t, Raise e)
  end.

Definition _extract_with_pdfminer (file_path : string) : traced string :=
  call (Pdfminer file_path) (pdfminer_extract_text file_path).

(** [f"\n\n--- Page {i+1} ---\n\n"] for the 0-based index [i] *)
Definition page_marker (i : nat) : string :=
  PyStr.NL +:+ PyStr.NL +:+ "--- Page " +:+ pretty (Z.of_nat i + 1) +:+ " ---"
  +:+ PyStr.NL +:+ PyStr.NL.

Fixpoint ocr_loop (i : nat) (images : list Image) (text : string) : traced string :=
  match images with
  | [] => tret text
  | image :: rest =>
      tbind (call (ImageToString i) (image_to_string image)) (fun page_text =>
        ocr_loop (S i) rest ((text +:+ page_marker i) +:+ page_text))
  end.

Definition _extract_with_ocr (file_path : string) : traced string :=
  tbind (call (ConvertFromPath file_path) (convert_from_path file_path))
        (fun images => ocr_loop 0 images "").

(** [not extracted_text or len(extracted_text.strip()) < 100] *)
Definition needs_ocr (extracted_text : string) : bool :=
  negb (TextService.nonempty extracted_text)
  || (PyStr.len (PyStr.strip extracted_text) <? 100).

(** The first two statements of the [try] block of [extract_text] *)
Definition extract_or_ocr (file_path : string) : traced string :=
  tbind (_extract_with_pdfminer file_path) (fun extracted_text =>
    if needs_ocr extracted_text then _extract_with_ocr file_path
    else tret extracted_text).

Definition result_path (pdf_id : string) : string :=
  "storage/results/" +:+ pdf_id +:+ "_text.txt".

(** The [except] handler of [extract_text] *)
Definition extract_failed (pdf_id : string) (e : exn) (db : Session) : Session :=
  update_pdf pdf_id (fun p => PDF.set_error (exn_str e) (PDF.set_status "failed" p)) db.

Definition extraction_error (e : exn) : exn :=
  HTTPException 500 ("Error extracting text: " +:+ exn_str e).

Definition extract_text (pdf_id : string) (db : Session)
  : Session * traced string :=
  match pdfs db !! pdf_id with
  | None => (db, ([], Raise (HTTPException 404 "PDF not found")))
  | Some pdf =>
      let db1 := update_pdf pdf_id (PDF.set_status "processing") db in
      let path := PDF.file_path pdf in
      match extract_or_ocr path with
      | (t1, Raise e) => (extract_failed pdf_id e db1, (t1, Raise (extraction_error e)))
      | (t1, Ok extracted_text) =>
          match count_pages path with
          | Raise e =>
              (extract_failed pdf_id e db1,
               (t1 ++ [PdfReader path], Raise (extraction_error e)))
          | Ok n =>
              let db2 := update_pdf pdf_id (PDF.set_page_count n) db1 in
              let out := result_path (PDF.id pdf) in
              let t := t1 ++ [PdfReader path; WriteText out] in
              match write_text out extracted_text with
              | Raise e => (extract_failed pdf_id e db2, (t, Raise (extraction_error e)))
              | Ok _ => (db2, (t, Ok extracted_text))
              end
          end
      end
  end.

(** *** routers/pdf.py *)

Definition cancel_pdf_processing (pdf_id : string) (db : Session)
  : Session * result PDFStatus.t :=
  match pdfs db !! pdf_id with
  | None => (db, Raise (HTTPException 404 "PDF not found"))
  | Some pdf =>
      if bool_decide (PDF.status pdf ∈ ["processing"; "uploaded"; "extracting"; "analyzing"])
      then
        let db' :=
          update_pdf pdf_id
            (fun p => PDF.set_error "Processing was canceled by the user"
                                    (PDF.set_status "canceled" p)) db in
        (db', Ok (PDFStatus.mk (PDF.id pdf) "canceled" 0
                               "PDF processing has been canceled"))
      else (db, Raise (HTTPException 400 "PDF is not being processed"))
  end.

(** The first statements of [process_pdf]: the write is made whenever
    the row exists. *)
Definition process_pdf_start (pdf_id : string) (db : Session) : Session :=
  update_pdf pdf_id (fun p => PDF.set_progress 10 (PDF.set_status "processing" p)) db.

(** [if pdf and pdf.status != "canceled": pdf.progress = n] *)
Definition progress_unless_canceled (pdf_id : string) (n : Z) (db : Session) : Session :=
  update_pdf pdf_id
    (fun p => if String.eqb (PDF.status p) "canceled" then p else PDF.set_progress n p) db.

(** The [except] handler of [process_pdf] *)
Definition process_failed (pdf_id : string) (e : exn) (db : Session) : Session :=
  update_pdf pdf_id (fun p => PDF.set_error (exn_str e) (PDF.set_status "failed" p)) db.

(** [process_pdf]; the router's [QAService()] has the provider
    ["claude"]. *)
Definition process_pdf (environ : gmap string string) (net : nat -> http_outcome)
           (during : nat -> Session -> Session) (pdf_id : string) (db : Session)
  : Session :=
  let db1 := process_pdf_start pdf_id db in
  match extract_text pdf_id db1 with
  | (db2, (_, Raise e)) => process_failed pdf_id e db2
  | (db2, (_, Ok text)) =>
      let db3 := progress_unless_canceled pdf_id 30 db2 in
      match TextService.chunk_text text "semantic" with
      | Raise e => process_failed pdf_id e db3
      | Ok chunks =>
          let db4 := progress_unless_canceled pdf_id 50 db3 in
          match generate_qa_from_chunks "claude" environ net during chunks pdf_id db4 with
          | (db5, Raise e) => process_failed pdf_id e db5
          | (db5, Ok _) => db5
          end
      end
  end.

(** The operations of the pipeline on one document *)
Inductive operation : Type :=
| OpStart
| OpExtract
| OpGenerate (provider : string) (environ : gmap string string)
             (net : nat -> http_outcome) (during : nat -> Session -> Session)
             (chunks : list Chunk)
| OpCancel.

Definition run_op (op : operation) (pdf_id : string) (db : Session) : Session :=
  match op with
  | OpStart => process_pdf_start pdf_id db
  | OpExtract => fst (extract_text pdf_id db)
  | OpGenerate provider environ net during chunks =>
      fst (generate_qa_from_chunks provider environ net during chunks pdf_id db)
  | OpCancel => fst (cancel_pdf_processing pdf_id db)
  end.

End Pipeline.

(** ** Vocabulary of the properties *)

(** The ceiling of [n / d] for a positive [d]. *)
Definition ceil_div (n d : Z) : Z := (n + d - 1) / d.

(** The tokens of a chunk sequence with the overlapping region removed:
    the first [keep] tokens of every chunk but the last, all tokens of the
    last. *)
Fixpoint without_overlap (keep : nat) (cs : list Chunk) : list string :=
  match cs with
  | [] => []
  | c :: rest =>
      match rest with
      | [] => PyStr.split (content c)
      | _ :: _ => take keep (PyStr.split (content c)) ++ without_overlap keep rest
      end
  end.

(** The same on token windows. *)
Fixpoint glue {A} (keep : nat) (ws : list (list A)) : list A :=
  match ws with
  | [] => []
  | w :: rest =>
      match rest with
      | [] => w
      | _ :: _ => take keep w ++ glue keep rest
      end
  end.

(** The chunk-count and reconstruction property of the sized chunker at
    one input. *)
Definition sized_chunks_cover (text : string) (max_tokens overlap : Z) : Prop :=
  exists cs,
    TextService.chunk_by_size text max_tokens overlap = Ok cs /\
    Z.of_nat (length cs)
      = ceil_div (Z.of_nat (length (PyStr.split text))) (max_tokens - overlap) /\
    without_overlap (Z.to_nat (max_tokens - overlap)) cs = PyStr.split text.

(** A word is a non-empty run of characters none of which is whitespace. *)
Definition word (w : list ascii) : Prop :=
  w <> [] /\ Forall (fun c => PyStr.isspace c = false) w.

(** A text all of whose characters are whitespace. *)
Definition blank (s : string) : Prop :=
  Forall (fun c => PyStr.isspace c = true) (PyStr.chars s).

(** The example text of the semantic chunker. *)
Definition intro_details : string :=
  "# Intro" +:+ PyStr.NL +:+ "Hello world." +:+ PyStr.NL +:+ PyStr.NL
  +:+ "# Details" +:+ PyStr.NL +:+ "More text here.".

(** The text of OCR'd pages: each page's text after its marker, pages
    numbered from [i] on. *)
Definition page_block (i : Z) (page_text : string) : string :=
  PyStr.NL +:+ PyStr.NL +:+ "--- Page " +:+ pretty i +:+ " ---"
  +:+ PyStr.NL +:+ PyStr.NL +:+ page_text.

Fixpoint pages_from (i : Z) (page_texts : list string) : string :=
  match page_texts with
  | [] => ""
  | t :: rest => page_block i t +:+ pages_from (i + 1) rest
  end.

(** Example stores: one document [d1] in a given state. *)
Definition doc (status : string) (progress : Z) : PDF.t :=
  PDF.mk "d1" "d1.pdf" "paper.pdf" "storage/pdfs/d1.pdf" None status progress None.

Definition store (status : string) (progress : Z) : Session :=
  mkSession {[ "d1" := doc status progress ]} [].

(** The credential of the hosted backend is set and non-empty. *)
Definition key_present (environ : gmap string string) : Prop :=
  exists k, environ !! "ANTHROPIC_API_KEY" = Some k /\ k <> "".

Definition key_absent (environ : gmap string string) : Prop :=
  environ !! "ANTHROPIC_API_KEY" = None \/ environ !! "ANTHROPIC_API_KEY" = Some "".

(** A backend that gets as far as its request. *)
Definition backend_ready (provider : string) (environ : gmap string string) : Prop :=
  provider = "ollama" \/ (provider = "claude" /\ key_present environ).

(** The [try] block of the selected backend. *)
Definition try_block (json_loads : string -> result json) (provider : string)
  : http_outcome -> string -> result (list json) :=
  if String.eqb provider "claude" then claude_try json_loads
  else ollama_try json_loads.

(** The request or the handling of the response fails with [e] at the
    transport, at the status check or at the decoding of the body. *)
Definition request_fails (post : http_outcome) (e : exn) : Prop :=
  post = PostRaises e \/
  (exists body, post = PostReturns (Raise e) body) \/
  post = PostReturns (Ok tt) (Raise e).

(** The row stored for the degraded pair of a chunk. *)
Definition error_row (pdf_id : string) (e : exn) (section_heading : string) : QAPair.t :=
  QAPair.mk pdf_id (JStr "Error generating Q&A")
            (JStr ("API error: " +:+ exn_str e)) (JStr section_heading)
            None None (JDict [("type", JStr "error")]).

(** The store after the status write made for the chunk of index [i]. *)
Definition chunk_started (scaled_progress : Z -> Z -> Z) (pdf_id : string)
           (i : nat) (total_chunks : Z) (db : Session) : Session :=
  update_pdf pdf_id
    (fun p => PDF.set_status (generating (Z.of_nat i + 1) total_chunks)
                (PDF.set_progress (50 + scaled_progress (Z.of_nat i) total_chunks) p)) db.

(** An operation keeps terminal states when a document that is in one
    has the same status afterwards. *)
Definition keeps_terminal (run : string -> Session -> Session) : Prop :=
  forall db pdf_id pdf,
    pdfs db !! pdf_id = Some pdf ->
    terminal (PDF.status pdf) = true ->
    status_of pdf_id (run pdf_id db) = Some (PDF.status pdf).

(** The statuses an operation checks for before it writes. *)
Definition guards (op : operation) (status : string) : bool :=
  match op with
  | OpCancel => terminal status
  | OpGenerate _ _ _ _ (_ :: _) => String.eqb status "canceled"
  | _ => false
  end.

(** A run of the generation stage that fails before it wrote anything. *)
Definition fails_untouched (out : Session * result (list QAPair.t)) (db : Session) : Prop :=
  exists e, out = (db, Raise e).

(** The bodies of the two backends' responses around a reply text. *)
Definition claude_response (reply : string) : http_outcome :=
  PostReturns (Ok tt)
    (Ok (JDict [("content", JList [JDict [("type", JStr "text"); ("text", JStr reply)]])])).

Definition ollama_response (reply : string) : http_outcome :=
  PostReturns (Ok tt) (Ok (JDict [("response", JStr reply)])).

(** Example replies: the JSON array of one pair, and the same after a
    sentence of prose. *)
Definition dq : string := String "034"%char EmptyString.

Definition one_pair_json : string :=
  "[{" +:+ dq +:+ "question" +:+ dq +:+ ":" +:+ dq +:+ "Q" +:+ dq +:+ ","
  +:+ dq +:+ "answer" +:+ dq +:+ ":" +:+ dq +:+ "A" +:+ dq +:+ ","
  +:+ dq +:+ "type" +:+ dq +:+ ":" +:+ dq +:+ "factual" +:+ dq +:+ "}]".

Definition one_pair : json :=
  JList [JDict [("question", JStr "Q"); ("answer", JStr "A"); ("type", JStr "factual")]].

Definition wrapped_reply : string := "Here are the pairs: " +:+ one_pair_json.

Definition expecting_value : exn :=
  ExternalError "Expecting value: line 1 column 1 (char 0)".

(** [json.loads] on the strings of the examples; no other string is
    decoded by this table. *)
Definition json_loads_examples (s : string) : result json :=
  if String.eqb s one_pair_json then Ok one_pair
  else if String.eqb s "[]" then Ok (JList [])
  else if String.eqb s wrapped_reply then Raise expecting_value
  else Raise (ExternalError "not in the table of examples").

(** The progress formula in exact arithmetic, for the examples. *)
Definition scaled_progress_exact (i total_chunks : Z) : Z := (i * 40) / total_chunks.

(** An example environment for the extractor: a scanned two-page file,
    from which pdfminer reads nothing. *)
Definition scan_pdfminer (path : string) : result string := Ok "".
Definition scan_convert (path : string) : result (list string) :=
  Ok ["first page"; "second page"].
Definition scan_ocr (image : string) : result string := Ok image.
Definition scan_count (path : string) : result Z := Ok 2.
Definition scan_write (path text : string) : result unit := Ok tt.

(** An example network: no connection is ever made. *)
Definition offline (i : nat) : http_outcome :=
  PostRaises (ExternalError "All connection attempts failed").

Definition nobody (i : nat) (db : Session) : Session := db.

(** ** More of routers/pdf.py *)

Module PyInt.

Definition digit_value (c : ascii) : option Z :=
  if Re.in_range "0" "9" c then Some (Z.of_N (N_of_ascii c) - 48) else None.

(** The digits of a decimal literal, with single underscores allowed
    between digits; [after_digit] tells whether the character before was
    a digit. *)
Fixpoint digits_go (acc : Z) (after_digit : bool) (l : list ascii) : option Z :=
  match l with
  | [] => if after_digit then Some acc else None
  | c :: l' =>
      if Ascii.eqb c "_" then
        if after_digit then digits_go acc false l' else None
      else
        match digit_value c with
        | Some d => digits_go (10 * acc + d) true l'
        | None => None
        end
  end.

Definition signed_digits (l : list ascii) : option Z :=
  match l with
  | c :: l' =>
      if Ascii.eqb c "-" then Z.opp <$> digits_go 0 false l'
      else if Ascii.eqb c "+" then digits_go 0 false l'
      else digits_go 0 false l
  | [] => None
  end.

(** [int(s)] for a string: surrounding whitespace, an optional sign,
    decimal digits. (The message shows [s] as [repr] shows a string
    without quotes or escapes.) *)
Definition int (s : string) : result Z :=
  match signed_digits (PyStr.strip_chars (PyStr.chars s)) with
  | Some z => Ok z
  | None => Raise (ValueError ("invalid literal for int() with base 10: '" +:+ s +:+ "'"))
  end.

End PyInt.

(** What an endpoint can raise: the exceptions above, and the
    [IndexError] of a list index out of range. *)
Inductive endpoint_exn : Type :=
| Exn (e : exn)
| IndexError (msg : string).

Definition index_list (parts : list string) (i : nat) : string + endpoint_exn :=
  match parts !! i with
  | Some p => inl p
  | None => inr (IndexError "list index out of range")
  end.

Definition int_of (s : string) : Z + endpoint_exn :=
  match PyInt.int s with
  | Ok z => inl z
  | Raise e => inr (Exn e)
  end.

(** The message of [get_pdf_status] for a status that starts with
    [analyzing_chunk]. *)
Definition chunk_message (status : string) : string + endpoint_exn :=
  let parts := PyStr.split_on "_" status in
  if (4 <=? length parts)%nat then
    match index_list parts 2 with
    | inr e => inr e
    | inl p2 =>
        match int_of p2 with
        | inr e => inr e
        | inl current =>
            match index_list parts 4 with
            | inr e => inr e
            | inl p4 =>
                match int_of p4 with
                | inr e => inr e
                | inl total =>
                    inl ("Generating Q&A pairs (" +:+ pretty current +:+ "/"
                         +:+ pretty total +:+ " chunks)...")
                end
            end
        end
    end
  else inl "Processing not started".

(** [str(pdf.error)] in the f-string of the failed message *)
Definition error_text (error : option string) : string :=
  match error with
  | Some e => e
  | None => "None"
  end.

Definition get_pdf_status (pdf_id : string) (db : Session)
  : PDFStatus.t + endpoint_exn :=
  match pdfs db !! pdf_id with
  | None => inr (Exn (HTTPException 404 "PDF not found"))
  | Some pdf =>
      let status := PDF.status pdf in
      let progress := PDF.progress pdf in
      let reply progress message := inl (PDFStatus.mk (PDF.id pdf) status progress message) in
      if String.eqb status "uploaded"
      then reply progress "PDF uploaded. Waiting for processing."
      else if String.eqb status "processing"
      then reply progress "Extracting text from PDF..."
      else if String.prefix "analyzing_chunk" status
      then match chunk_message status with
           | inl message => reply progress message
           | inr e => inr e
           end
      else if String.eqb status "completed"
      then reply 100 "Processing completed successfully."
      else if String.eqb status "failed"
      then reply progress ("Processing failed: " +:+ error_text (PDF.error pdf))
      else if String.eqb status "canceled"
      then reply progress "Processing was canceled by the user"
      else reply progress "Processing not started"
  end.


(** ** routers/settings.py and the start-up of main.py *)

(** The process environment and the settings table. *)
Record Config : Type := mkConfig {
  environ_of : gmap string string;
  settings_of : gmap string string
}.

(** [if os.getenv("ANTHROPIC_API_KEY")] *)
Definition env_key_set (environ : gmap string string) : bool :=
  match environ !! "ANTHROPIC_API_KEY" with
  | Some (String _ _) => true
  | _ => false
  end.

Definition has_nul (s : string) : bool :=
  existsb (Ascii.eqb "000"%char) (PyStr.chars s).

(** [os.environ[key] = value]: a value with a NUL character is refused. *)
Definition putenv (key value : string) (environ : gmap string string)
  : result (gmap string string) :=
  if has_nul value then Raise (ValueError "embedded null byte")
  else Ok (<[key := value]> environ).

Definition save_api_key (apiKey : string) (cfg : Config) : Config * result unit :=
  if negb (String.prefix "sk-" apiKey)
  then (cfg, Raise (HTTPException 400 "Invalid API key format"))
  else
    let settings' := <["anthropic_api_key" := apiKey]> (settings_of cfg) in
    match putenv "ANTHROPIC_API_KEY" apiKey (environ_of cfg) with
    | Raise e => (mkConfig (environ_of cfg) settings', Raise e)
    | Ok environ' => (mkConfig environ' settings', Ok tt)
    end.

(** The [isSet] of [get_api_key_status] *)
Definition get_api_key_status (cfg : Config) : bool :=
  if env_key_set (environ_of cfg) then true
  else match settings_of cfg !! "anthropic_api_key" with
       | Some v => TextService.nonempty v
       | None => false
       end.

(** [load_api_key_to_env]: an exception inside is printed and dropped. *)
Definition load_api_key_to_env (cfg : Config) : Config :=
  if env_key_set (environ_of cfg) then cfg
  else match settings_of cfg !! "anthropic_api_key" with
       | Some v =>
           if TextService.nonempty v then
             match putenv "ANTHROPIC_API_KEY" v (environ_of cfg) with
             | Ok environ' => mkConfig environ' (settings_of cfg)
             | Raise _ => cfg
             end
           else cfg
       | None => cfg
       end.

(** ** More vocabulary *)

(** Cancellation requests for one document made during the provider
    calls picked by [sched]. *)
Definition cancel_requests (sched : nat -> bool) (pdf_id : string)
           (i : nat) (db : Session) : Session :=
  if sched i then fst (cancel_pdf_processing pdf_id db) else db.

(** A character that can start a heading: [#] or a capital letter. *)
Definition heading_mark (c : ascii) : bool :=
  Ascii.eqb c "#" || Re.in_range "A" "Z" c.

(** The position of a chunk in a sequence and its tokens. *)
Definition tokens_of (c : Chunk) : list string := PyStr.split (content c).

(** The heading a paragraph chunk can have. *)
Definition paragraph_heading (h : string) : Prop :=
  h = "Text" \/
  (PyStr.len h < 100 /\ PyStr.endswith_any [":"; "."]%char h = true /\
   PyStr.strip h = h).

(** The rows of the degraded pairs of a chunk sequence, from index [i]. *)
Fixpoint error_rows (pdf_id : string) (errs : nat -> exn) (i : nat)
         (chunks : list Chunk) : list QAPair.t :=
  match chunks with
  | [] => []
  | chunk :: rest =>
      error_row pdf_id (errs i) (heading chunk) :: error_rows pdf_id errs (S i) rest
  end.




(** What holds of every chunk of the heading chunker: content and heading
    carry no surrounding whitespace. *)
Definition trimmed_chunk (c : Chunk) : Prop :=
  PyStr.strip (content c) = content c /\
  (heading c = "Introduction" \/ PyStr.strip (heading c) = heading c).

(** What holds of every chunk of the paragraph chunker. *)
Definition paragraph_chunk (c : Chunk) : Prop :=
  content c <> "" /\ PyStr.strip (content c) = content c /\
  paragraph_heading (heading c).

(** An example environment for the OCR path: three page images, the
    second of which is not recognised. *)
Definition smudged_convert (path : string) : result (list string) :=
  Ok ["first page"; "smudge"; "third page"].
Definition smudged_ocr (image : string) : result string :=
  if String.eqb image "smudge" then Raise (ExternalError "tesseract failed")
  else Ok image.

(** ** Facts about the string primitives *)

Module PyStrFacts.
Import PyStr.

Lemma chars_text l : chars (text l) = l.
Proof. apply list_ascii_of_string_of_list_ascii. Qed.

Lemma text_chars s : text (chars s) = s.
Proof. apply string_of_list_ascii_of_string. Qed.

Lemma flush_word cur : cur <> [] -> flush cur = [rev cur].
Proof. destruct cur; [congruence | reflexivity]. Qed.

(** Reading a run of non-whitespace characters only extends the run. *)
Lemma split_go_run w : forall cur l,
  Forall (fun c => isspace c = false) w ->
  split_go cur (w ++ l) = split_go (rev w ++ cur) l.
Proof.
  induction w as [|c w IH]; intros cur l Hw; [reflexivity|].
  inversion Hw as [|? ? Hc Hw']; subst. simpl. rewrite Hc.
  rewrite IH by assumption. now rewrite <- app_assoc.
Qed.

Lemma split_go_words : forall l cur,
  Forall (fun c => isspace c = false) cur ->
  Forall word (split_go cur l).
Proof.
  induction l as [|c l IH]; intros cur Hcur; simpl.
  - destruct cur as [|x cur]; [constructor|].
    constructor; [|constructor]. split.
    + intros E. apply (f_equal (@length ascii)) in E.
      rewrite length_rev in E. discriminate.
    + apply Forall_rev. exact Hcur.
  - destruct (isspace c) eqn:Hc.
    + apply Forall_app. split; [|apply IH; constructor].
      destruct cur as [|x cur]; [constructor|].
      constructor; [|constructor]. split.
      * intros E. apply (f_equal (@length ascii)) in E.
        rewrite length_rev in E. discriminate.
      * apply Forall_rev. exact Hcur.
    + apply IH. constructor; assumption.
Qed.

Lemma split_chars_words l : Forall word (split_chars l).
Proof. apply split_go_words. constructor. Qed.

(** Splitting the join of words gives the words back. *)
Lemma split_join_words ws :
  Forall word ws -> split_chars (join_chars [" "%char] ws) = ws.
Proof.
  unfold split_chars. induction ws as [|w ws IH]; intros Hws; [reflexivity|].
  inversion Hws as [|? ? [Hne Hw] Hws']; subst.
  destruct ws as [|w' ws].
  - simpl. rewrite <- (app_nil_r w) at 1.
    rewrite split_go_run by assumption. simpl. rewrite app_nil_r.
    rewrite flush_word.
    + now rewrite rev_involutive.
    + intros E. apply Hne. apply (f_equal (@rev ascii)) in E.
      now rewrite rev_involutive in E.
  - change (join_chars [" "%char] (w :: w' :: ws))
      with (w ++ " "%char :: join_chars [" "%char] (w' :: ws)).
    rewrite split_go_run by assumption. rewrite app_nil_r.
    cbn [split_go isspace]. rewrite flush_word.
    + rewrite rev_involutive. cbn [app]. f_equal. apply IH. assumption.
    + intros E. apply Hne. apply (f_equal (@rev ascii)) in E.
      now rewrite rev_involutive in E.
Qed.

Lemma split_tokens_words s : Forall (fun t => word (chars t)) (split s).
Proof.
  unfold split. apply Forall_fmap.
  eapply Forall_impl; [apply split_chars_words|].
  intros w Hw. simpl. now rewrite chars_text.
Qed.

(** [" ".join(ts).split() == ts] for tokens [ts] produced by [split]. *)
Lemma split_join ts :
  Forall (fun t => word (chars t)) ts -> split (join " " ts) = ts.
Proof.
  intros Hts. unfold split, join. rewrite chars_text.
  change (chars " ") with [" "%char].
  rewrite split_join_words.
  - rewrite <- list_fmap_compose. rewrite <- (list_fmap_id ts) at 2.
    apply list_fmap_ext. intros _ t _. apply text_chars.
  - apply Forall_fmap. exact Hts.
Qed.

End PyStrFacts.

(** ** The sized chunker *)

Module SizedFacts.
Import PyStr PyStrFacts TextService.

Lemma ceil_div_spec n d :
  0 < d -> 0 <= n -> (ceil_div n d - 1) * d < n <= ceil_div n d * d.
Proof.
  intros Hd Hn. unfold ceil_div.
  pose proof (Z.div_mod (n + d - 1) d ltac:(lia)) as E.
  pose proof (Z.mod_pos_bound (n + d - 1) d Hd) as B.
  nia.
Qed.

Lemma ceil_div_step n d : 0 < d -> d < n -> ceil_div n d = ceil_div (n - d) d + 1.
Proof.
  intros Hd Hn. unfold ceil_div.
  replace (n + d - 1) with ((n - d + d - 1) + 1 * d) by lia.
  now rewrite Z.div_add by lia.
Qed.

Lemma ceil_div_one n d : 0 < n <= d -> ceil_div n d = 1.
Proof.
  intros H. unfold ceil_div. symmetry. apply (Z.div_unique _ _ 1 (n - 1)); lia.
Qed.

Lemma ceil_div_zero d : 0 < d -> ceil_div 0 d = 0.
Proof. intros H. unfold ceil_div. apply Z.div_small. lia. Qed.

(** [range] yields [ceil((stop - i) / step)] indices. *)
Lemma range_go_length step stop : 0 < step -> forall fuel i,
  stop - i <= Z.of_nat fuel ->
  Z.of_nat (length (range_go fuel i stop step))
    = ceil_div (Z.max 0 (stop - i)) step.
Proof.
  intros Hstep. induction fuel as [|fuel IH]; intros i Hfuel; simpl.
  - rewrite Z.max_l by lia. now rewrite ceil_div_zero.
  - destruct (Z.ltb_spec i stop) as [Hlt|Hge].
    + cbn [length]. rewrite Nat2Z.inj_succ, IH by lia.
      rewrite (Z.max_r 0 (stop - i)) by lia.
      destruct (Z.le_gt_cases (stop - i) step) as [Hlast|Hmore].
      * rewrite Z.max_l by lia. rewrite ceil_div_zero, ceil_div_one; lia.
      * rewrite Z.max_r by lia. rewrite (ceil_div_step (stop - i)) by lia.
        replace (stop - (i + step)) with (stop - i - step) by lia. lia.
    + rewrite Z.max_l by lia. now rewrite ceil_div_zero.
Qed.

(** A window that starts inside the list. *)
Lemma slice_window {A} (l : list A) i m :
  0 <= i -> 0 <= m ->
  slice l i (i + m) = take (Z.to_nat m) (drop (Z.to_nat i) l).
Proof.
  intros Hi Hm. unfold slice, norm_index.
  destruct (Z.ltb_spec i 0); [lia|]. destruct (Z.ltb_spec (i + m) 0); [lia|].
  set (n := Z.of_nat (length l)).
  destruct (Z.le_gt_cases n i) as [Hout|Hin].
  - rewrite !drop_ge; [now rewrite !take_nil | lia | lia].
  - rewrite (Z.min_l i n) by lia.
    destruct (Z.le_gt_cases (i + m) n) as [Hfit|Hcut].
    + rewrite Z.min_l by lia. do 2 f_equal. lia.
    + rewrite Z.min_r by lia.
      rewrite !take_ge; [reflexivity | rewrite length_drop; lia | rewrite length_drop; lia].
Qed.

(** Gluing the windows of a range gives back the list from the first
    index on. *)
Lemma glue_windows {A} (l : list A) step m :
  0 < step <= m -> forall fuel i,
  0 <= i -> Z.of_nat (length l) - i <= Z.of_nat fuel ->
  glue (Z.to_nat step)
       ((fun j => slice l j (j + m)) <$> range_go fuel i (Z.of_nat (length l)) step)
    = drop (Z.to_nat i) l.
Proof.
  intros Hstep. induction fuel as [|fuel IH]; intros i Hi Hfuel.
  - simpl. rewrite drop_ge; [reflexivity | lia].
  - cbn [range_go]. destruct (Z.ltb_spec i (Z.of_nat (length l))) as [Hlt|Hge].
    2:{ simpl. rewrite drop_ge; [reflexivity | lia]. }
    rewrite fmap_cons. cbn [glue].
    specialize (IH (i + step) ltac:(lia) ltac:(lia)).
    destruct (range_go fuel (i + step) (Z.of_nat (length l)) step) as [|j js] eqn:E.
    + assert (Z.of_nat (length l) <= i + step) as Hlast.
      { destruct fuel as [|fuel']; [lia|]. cbn [range_go] in E.
        destruct (Z.ltb_spec (i + step) (Z.of_nat (length l))); [discriminate | lia]. }
      cbn [fmap list_fmap]. rewrite slice_window by lia.
      apply take_ge. rewrite length_drop. lia.
    + rewrite fmap_cons in IH |- *. rewrite IH.
      rewrite slice_window by lia. rewrite take_take.
      rewrite Nat.min_l by lia.
      replace (Z.to_nat (i + step)) with (Z.to_nat i + Z.to_nat step)%nat by lia.
      rewrite <- drop_drop. apply take_drop.
Qed.

Lemma without_overlap_glue keep cs :
  without_overlap keep cs = glue keep ((fun c => split (content c)) <$> cs).
Proof.
  induction cs as [|c cs IH]; [reflexivity|].
  destruct cs as [|c' cs]; [reflexivity|].
  cbn [without_overlap] in *. rewrite IH. reflexivity.
Qed.

(** The token windows of the chunks built by the loop. *)
Lemma fold_size_chunk_tokens tokens max_tokens :
  Forall (fun t => word (chars t)) tokens ->
  forall idxs acc,
  (fun c => split (content c)) <$> fold_left (size_chunk tokens max_tokens) idxs acc
    = ((fun c => split (content c)) <$> acc)
      ++ ((fun i => slice tokens i (i + max_tokens)) <$> idxs).
Proof.
  intros Htok. induction idxs as [|i idxs IH]; intros acc; simpl.
  - now rewrite app_nil_r.
  - rewrite IH. unfold size_chunk. rewrite fmap_app. cbn [fmap list_fmap content].
    rewrite <- app_assoc. cbn [app]. do 2 f_equal.
    apply split_join. unfold slice. apply Forall_take, Forall_drop, Htok.
Qed.

End SizedFacts.

(** C6, as amended. For every text chunked by the fixed-size strategy with
    [0 <= overlap < max_tokens]: the number of chunks is the ceiling of the
    token count over [max_tokens - overlap], and the first
    [max_tokens - overlap] tokens of each chunk but the last, followed by
    all tokens of the last, are the whitespace tokens of the text. *)
Theorem chunk_by_size_covers (text : string) (max_tokens overlap : Z) :
  0 <= overlap < max_tokens -> sized_chunks_cover text max_tokens overlap.
Proof.
  intros Hov. unfold sized_chunks_cover, TextService.chunk_by_size.
  destruct (Z.eqb_spec (max_tokens - overlap) 0) as [E|_]; [lia|].
  eexists. split; [reflexivity|].
  set (tokens := PyStr.split text).
  set (step := max_tokens - overlap).
  assert (Forall (fun t => word (PyStr.chars t)) tokens) as Htok
    by apply PyStrFacts.split_tokens_words.
  pose proof (SizedFacts.fold_size_chunk_tokens tokens max_tokens Htok
                (PyStr.range0 (Z.of_nat (length tokens)) step) []) as Hfold.
  cbn [fmap list_fmap app] in Hfold.
  unfold PyStr.range0 in *. destruct (Z.ltb_spec 0 step) as [Hpos|]; [|lia].
  split.
  - rewrite <- (length_fmap (fun c => PyStr.split (content c))), Hfold, length_fmap.
    rewrite SizedFacts.range_go_length by lia.
    f_equal. lia.
  - rewrite SizedFacts.without_overlap_glue, Hfold.
    rewrite (SizedFacts.glue_windows tokens step max_tokens) by lia.
    reflexivity.
Qed.

Lemma chunk_by_size_covers_witness :
  0 <= 100 < 1000 /\ sized_chunks_cover "one two  three" 1000 100.
Proof. split; [lia | apply chunk_by_size_covers; lia]. Defined.

(** C6 as stated fails for a negative overlap: with [max_tokens = 1] and
    [overlap = -1] the window advances by two tokens and holds one, so the
    token [b] of [a b c] is in no chunk. *)
Lemma chunk_by_size_negative_overlap_gap :
  -1 < 1 /\
  TextService.chunk_by_size "a b c" 1 (-1)
    = Ok [mkChunk "Chunk 1" "a"; mkChunk "Chunk 2" "c"] /\
  ~ sized_chunks_cover "a b c" 1 (-1).
Proof.
  split; [lia|]. split; [vm_compute; reflexivity|].
  intros [cs [Hcs [_ Hglue]]].
  vm_compute in Hcs. injection Hcs as <-.
  vm_compute in Hglue. discriminate.
Qed.

(** ** The heading chunker *)

(** C8. The text ["# Intro\nHello world.\n\n# Details\nMore text here."]
    under the semantic strategy yields exactly the two chunks
    [{heading: "# Intro", content: "Hello world."}] and
    [{heading: "# Details", content: "More text here."}], in this order. *)
Theorem chunk_by_headings_intro_details :
  TextService.chunk_by_headings intro_details
    = [mkChunk "# Intro" "Hello world."; mkChunk "# Details" "More text here."]
  /\ TextService.chunk_text intro_details "semantic"
    = Ok [mkChunk "# Intro" "Hello world."; mkChunk "# Details" "More text here."].
Proof. split; vm_compute; reflexivity. Qed.

Module HeadingFacts.
Import PyStr PyStrFacts Re TextService.

Lemma lstrip_blank l : Forall (fun c => isspace c = true) l -> lstrip l = [].
Proof.
  induction 1 as [|c l Hc _ IH]; [reflexivity|]. simpl. now rewrite Hc.
Qed.

Lemma strip_blank s : blank s -> strip s = "".
Proof.
  intros H. unfold strip, strip_chars. now rewrite (lstrip_blank _ H).
Qed.

(** Every heading pattern needs a [#], a capital letter or the words
    CHAPTER or Section right after the line start: no match starts in
    whitespace. *)
Lemma no_heading_in_blank pos rest :
  Forall (fun c => isspace c = true) rest ->
  match_at combined_pattern pos rest = None.
Proof.
  intros H. destruct rest as [|c rest].
  { destruct pos; reflexivity. }
  inversion H as [|? ? Hc H']; subst.
  destruct rest as [|c' rest].
  { destruct c as [[] [] [] [] [] [] [] []]; try discriminate Hc;
      destruct pos; reflexivity. }
  inversion H' as [|? ? Hc' _]; subst.
  destruct c as [[] [] [] [] [] [] [] []]; try discriminate Hc;
    destruct c' as [[] [] [] [] [] [] [] []]; try discriminate Hc';
    destruct pos; reflexivity.
Qed.

Lemma scan_blank rest : forall pos,
  Forall (fun c => isspace c = true) rest ->
  scan combined_pattern pos rest 0 = [].
Proof.
  induction rest as [|c rest IH]; intros pos H; cbn [scan];
    rewrite (no_heading_in_blank _ _ H); [reflexivity|].
  apply IH. now inversion H.
Qed.

Lemma substr_all s : substr s 0 (len s) = s.
Proof.
  unfold substr, slice, norm_index, len.
  destruct (Z.ltb_spec (Z.of_nat (length (chars s))) 0) as [|_]; [lia|].
  change (0 <? 0) with false. cbv iota.
  rewrite (Z.min_l 0) by lia. rewrite Z.min_id, Z.sub_0_r, Nat2Z.id.
  change (Z.to_nat 0) with 0%nat. rewrite drop_0.
  rewrite take_ge by lia. apply text_chars.
Qed.

Lemma len_pos s : s <> "" -> 0 < len s.
Proof. destruct s; [congruence|]. unfold len. simpl. lia. Qed.

End HeadingFacts.

(** C10. The semantic chunker can return a chunk with empty content: a
    non-empty text of whitespace only yields the single chunk
    [{heading: "Introduction", content: ""}], and when the last heading
    match is followed by text that is all whitespace, the final chunk is
    the one of that heading with empty content. *)
Theorem chunk_by_headings_empty_content (text : string) :
  (text <> "" -> blank text ->
   TextService.chunk_by_headings text = [mkChunk "Introduction" ""]) /\
  (forall ms start stop,
     Re.finditer TextService.combined_pattern text = ms ++ [(start, stop)] ->
     Z.of_nat stop < PyStr.len text ->
     blank (PyStr.substr text (Z.of_nat stop) (PyStr.len text)) ->
     exists front,
       TextService.chunk_by_headings text
         = front ++ [mkChunk (PyStr.strip (PyStr.substr text (Z.of_nat start)
                                                         (Z.of_nat stop))) ""]).
Proof.
  unfold TextService.chunk_by_headings, TextService.chunks_of_matches. split.
  - intros Hne Hblank. unfold Re.finditer.
    rewrite HeadingFacts.scan_blank by exact Hblank.
    cbn [fold_left TextService.final_chunk].
    destruct (Z.ltb_spec (Z.of_nat 0) (PyStr.len text)) as [_|Hlen].
    + change (Z.of_nat 0) with 0. rewrite HeadingFacts.substr_all.
      now rewrite HeadingFacts.strip_blank.
    + pose proof (HeadingFacts.len_pos text Hne). lia.
  - intros ms start stop Hms Hlt Hblank. rewrite Hms, fold_left_app.
    destruct (fold_left (TextService.heading_step text) ms ([], 0%nat, "Introduction"))
      as [[chunks last_end] current_heading].
    cbn [fold_left TextService.heading_step TextService.final_chunk].
    destruct (Z.ltb_spec (Z.of_nat stop) (PyStr.len text)) as [_|]; [|lia].
    rewrite (HeadingFacts.strip_blank _ Hblank). eexists. reflexivity.
Qed.

Lemma chunk_by_headings_empty_content_witness :
  TextService.chunk_by_headings "  " = [mkChunk "Introduction" ""] /\
  exists front,
    TextService.chunk_by_headings ("intro text." +:+ PyStr.NL +:+ "# B" +:+ PyStr.NL +:+ " ")
      = front ++ [mkChunk "# B" ""].
Proof.
  split.
  - apply (proj1 (chunk_by_headings_empty_content "  ")).
    + discriminate.
    + repeat constructor.
  - apply (proj2 (chunk_by_headings_empty_content
                    ("intro text." +:+ PyStr.NL +:+ "# B" +:+ PyStr.NL +:+ " "))
                 [] 11%nat 16%nat).
    + vm_compute. reflexivity.
    + vm_compute. reflexivity.
    + repeat constructor.
Defined.

(** ** Extraction *)

Section ExtractionFacts.

Variable Image : Type.
Variable pdfminer_extract_text : string -> result string.
Variable convert_from_path : string -> result (list Image).
Variable image_to_string : Image -> result string.
Variable count_pages : string -> result Z.
Variable write_text : string -> string -> result unit.

Local Abbreviation the_ocr_loop := (ocr_loop Image image_to_string).
Local Abbreviation the_ocr := (_extract_with_ocr Image convert_from_path image_to_string).
Local Abbreviation the_extract_text :=
  (extract_text Image pdfminer_extract_text convert_from_path image_to_string
                count_pages write_text).

Lemma sapp_assoc (s1 s2 s3 : string) : (s1 +:+ s2) +:+ s3 = s1 +:+ (s2 +:+ s3).
Proof.
  induction s1 as [|a s1 IH]; [reflexivity|].
  change (String a ((s1 +:+ s2) +:+ s3) = String a (s1 +:+ (s2 +:+ s3))).
  now rewrite IH.
Qed.

Lemma sapp_empty_r (s : string) : s +:+ "" = s.
Proof.
  induction s as [|a s IH]; [reflexivity|].
  change (String a (s +:+ "") = String a s). now rewrite IH.
Qed.

Lemma page_marker_block i page_text :
  page_marker i +:+ page_text = page_block (Z.of_nat i + 1) page_text.
Proof. unfold page_marker, page_block. now rewrite !sapp_assoc. Qed.

(** When every page is recognised, the loop appends the page blocks in
    order to the text so far. *)
Lemma ocr_loop_pages images : forall page_texts i text,
  Forall2 (fun image t => image_to_string image = Ok t) images page_texts ->
  snd (the_ocr_loop i images text) = Ok (text +:+ pages_from (Z.of_nat i + 1) page_texts).
Proof.
  induction images as [|image images IH]; intros page_texts i text H;
    inversion H as [|? t ? rest Himg Hrest]; subst.
  - simpl. now rewrite sapp_empty_r.
  - cbn [ocr_loop]. rewrite Himg. cbn [call tbind].
    specialize (IH rest (S i) ((text +:+ page_marker i) +:+ t) Hrest).
    destruct (the_ocr_loop (S i) images ((text +:+ page_marker i) +:+ t)) as [tr r].
    cbn [snd] in *. rewrite IH. f_equal.
    cbn [pages_from]. rewrite <- page_marker_block, !sapp_assoc.
    replace (Z.of_nat (S i) + 1) with (Z.of_nat i + 1 + 1) by lia. reflexivity.
Qed.

(** The OCR path converts the file first; its page calls come after. *)
Lemma ocr_trace_head path :
  exists rest, fst (the_ocr path) = ConvertFromPath path :: rest.
Proof.
  unfold _extract_with_ocr, call, tbind.
  destruct (convert_from_path path) as [images|e]; [|eexists; reflexivity].
  destruct (the_ocr_loop 0%nat images ""); eexists; reflexivity.
Qed.

Lemma needs_ocr_spec t :
  needs_ocr t = true <-> t = "" \/ PyStr.len (PyStr.strip t) < 100.
Proof.
  unfold needs_ocr. rewrite orb_true_iff, Z.ltb_lt.
  destruct t; simpl; intuition congruence.
Qed.

(** C7. Extraction calls pdfminer first; given its text, the OCR
    fallback is invoked exactly when that text is empty or shorter than
    100 characters once stripped; and the OCR fallback returns, for the
    pages in order, each page's recognised text after the marker
    [--- Page i ---] with [i] counted from 1. *)
Theorem extraction_falls_back_to_ocr (pdf_id : string) (db : Session) (pdf : PDF.t) :
  pdfs db !! pdf_id = Some pdf ->
  let path := PDF.file_path pdf in
  let trace := fst (snd (the_extract_text pdf_id db)) in
  (exists rest, trace = Pdfminer path :: rest) /\
  (forall t, pdfminer_extract_text path = Ok t ->
     (ConvertFromPath path ∈ trace <-> t = "" \/ PyStr.len (PyStr.strip t) < 100)) /\
  (forall images page_texts,
     convert_from_path path = Ok images ->
     Forall2 (fun image t => image_to_string image = Ok t) images page_texts ->
     snd (the_ocr path) = Ok (pages_from 1 page_texts)).
Proof.
  intros Hpdf path trace. subst trace.
  unfold extract_text. rewrite Hpdf. fold path.
  unfold extract_or_ocr, _extract_with_pdfminer, call, tbind.
  split; [|split].
  - destruct (pdfminer_extract_text path) as [t|e]; [|eexists; reflexivity].
    destruct (if needs_ocr t then _ else _) as [tr [x|e]];
      [destruct (count_pages path); [destruct (write_text _ x)|]|];
      eexists; reflexivity.
  - intros t Ht. rewrite Ht. rewrite <- needs_ocr_spec.
    destruct (needs_ocr t) eqn:Hocr.
    + destruct (ocr_trace_head path) as [rest Hrest].
      destruct (the_ocr path) as [tr [x|e]]; cbn [fst] in Hrest; subst tr;
        [destruct (count_pages path); [destruct (write_text _ x)|]|];
        cbn [fst snd app]; split; auto; intros _;
        apply list_elem_of_further, list_elem_of_here.
    + unfold tret.
      destruct (count_pages path); [destruct (write_text _ t)|];
        cbn [fst snd app]; split; try discriminate; intros Hin;
        repeat (apply elem_of_cons in Hin as [Hin|Hin]; [discriminate Hin|]);
        apply elem_of_nil in Hin; contradiction.
  - intros images page_texts Himages Hpages.
    unfold _extract_with_ocr, call, tbind.
    rewrite Himages.
    pose proof (ocr_loop_pages images page_texts 0%nat "" Hpages) as Hloop.
    destruct (the_ocr_loop 0%nat images "") as [tr r].
    cbn [snd] in *. rewrite Hloop. reflexivity.
Qed.

End ExtractionFacts.

(** ** The store *)

Lemma update_pdf_lookup pdf_id f db :
  pdfs (update_pdf pdf_id f db) !! pdf_id = f <$> pdfs db !! pdf_id.
Proof. apply lookup_alter_eq. Qed.

Lemma update_pdf_is_Some pdf_id f db pdf_id' :
  is_Some (pdfs (update_pdf pdf_id f db) !! pdf_id') <-> is_Some (pdfs db !! pdf_id').
Proof. apply lookup_alter_is_Some. Qed.

Lemma generating_not_cancellable i n :
  generating i n ∉ ["processing"; "uploaded"; "extracting"; "analyzing"].
Proof.
  unfold generating. intros H.
  repeat (apply elem_of_cons in H as [H|H];
          [cbv [String.append] in H; discriminate H|]).
  now apply elem_of_nil in H.
Qed.

Lemma terminal_not_cancellable s :
  terminal s = true ->
  bool_decide (s ∈ ["processing"; "uploaded"; "extracting"; "analyzing"]) = false.
Proof.
  unfold terminal. intros H. apply bool_decide_eq_true in H.
  repeat (apply elem_of_cons in H as [->|H]; [reflexivity|]).
  now apply elem_of_nil in H.
Qed.

(** ** The cancellation endpoint *)

(** C1, on the code. A cancellation request for a document whose status is
    [analyzing_chunk_i_of_n] is rejected with HTTP 400 and the store is
    left as it was: the status is not one of the four strings the endpoint
    accepts. *)
Theorem cancel_rejected_while_generating (pdf_id : string) (db : Session)
        (pdf : PDF.t) (i n : Z) :
  pdfs db !! pdf_id = Some pdf ->
  PDF.status pdf = generating i n ->
  cancel_pdf_processing pdf_id db
    = (db, Raise (HTTPException 400 "PDF is not being processed")).
Proof.
  intros Hpdf Hstatus. unfold cancel_pdf_processing. rewrite Hpdf, Hstatus.
  rewrite bool_decide_eq_false_2; [reflexivity|].
  apply generating_not_cancellable.
Qed.

Lemma cancel_rejected_while_generating_witness :
  status_of "d1" (store (generating 1 3) 50) = Some "analyzing_chunk_1_of_3" /\
  cancel_pdf_processing "d1" (store (generating 1 3) 50)
    = (store (generating 1 3) 50, Raise (HTTPException 400 "PDF is not being processed")).
Proof.
  split; [vm_compute; reflexivity|].
  apply (cancel_rejected_while_generating "d1" _ (doc (generating 1 3) 50) 1 3).
  - vm_compute. reflexivity.
  - reflexivity.
Defined.

(** A request made while the document is [processing] is accepted: the
    status becomes [canceled], the stored progress stays as it was. *)
Example cancel_accepted_while_processing :
  let out := cancel_pdf_processing "d1" (store "processing" 10) in
  snd out = Ok (PDFStatus.mk "d1" "canceled" 0 "PDF processing has been canceled") /\
  status_of "d1" (fst out) = Some "canceled" /\
  progress_of "d1" (fst out) = Some 10.
Proof. vm_compute. repeat split. Qed.

(** ** The generation stage and the job *)

Section PipelineFacts.

Variable json_loads : string -> result json.
Variable scaled_progress : Z -> Z -> Z.
Variable Image : Type.
Variable pdfminer_extract_text : string -> result string.
Variable convert_from_path : string -> result (list Image).
Variable image_to_string : Image -> result string.
Variable count_pages : string -> result Z.
Variable write_text : string -> string -> result unit.

Local Abbreviation the_loop := (qa_loop json_loads scaled_progress).
Local Abbreviation the_generate := (generate_qa_from_chunks json_loads scaled_progress).
Local Abbreviation the_extract :=
  (extract_text Image pdfminer_extract_text convert_from_path image_to_string
                count_pages write_text).
Local Abbreviation the_run_op :=
  (run_op json_loads scaled_progress Image pdfminer_extract_text convert_from_path
          image_to_string count_pages write_text).
Local Abbreviation the_process_pdf :=
  (process_pdf json_loads scaled_progress Image pdfminer_extract_text
               convert_from_path image_to_string count_pages write_text).

(** C2, as amended. Terminal states are kept where the code checks for
    them: a cancellation request on a completed, failed or canceled
    document is rejected and changes nothing, and the generation loop
    over a non-empty chunk sequence returns from a canceled document
    without a write. *)
Theorem terminal_kept_where_guarded (op : operation) (pdf_id : string)
        (db : Session) (pdf : PDF.t) :
  pdfs db !! pdf_id = Some pdf ->
  guards op (PDF.status pdf) = true ->
  the_run_op op pdf_id db = db /\
  status_of pdf_id (the_run_op op pdf_id db) = Some (PDF.status pdf).
Proof.
  intros Hpdf Hguard.
  assert (the_run_op op pdf_id db = db) as ->;
    [|split; [reflexivity | unfold status_of; now rewrite Hpdf]].
  destruct op as [| |provider environ net during chunks|]; try discriminate Hguard.
  - destruct chunks as [|chunk rest]; [discriminate Hguard|].
    cbn [guards] in Hguard. cbn [run_op].
    unfold generate_qa_from_chunks. rewrite Hpdf.
    cbn [qa_loop]. rewrite Hpdf, Hguard. reflexivity.
  - cbn [guards] in Hguard. cbn [run_op]. unfold cancel_pdf_processing.
    rewrite Hpdf, (terminal_not_cancellable _ Hguard). reflexivity.
Qed.

Lemma extract_text_keeps pdf_id db :
  qa_pairs (fst (the_extract pdf_id db)) = qa_pairs db /\
  (is_Some (pdfs db !! pdf_id) ->
   is_Some (pdfs (fst (the_extract pdf_id db)) !! pdf_id)).
Proof.
  unfold extract_text. destruct (pdfs db !! pdf_id) as [pdf|] eqn:Hpdf.
  2:{ split; [reflexivity | intros []; discriminate]. }
  assert (is_Some (pdfs db !! pdf_id)) as Hsome by (rewrite Hpdf; eauto).
  destruct (extract_or_ocr _ _ _ _ _) as [t1 [x|e]];
    [destruct (count_pages _); [destruct (write_text _ x)|]|];
    (split; [reflexivity | intros _; unfold extract_failed; cbn [fst];
                           rewrite ?update_pdf_is_Some; exact Hsome]).
Qed.

(** C9. With an empty chunk sequence the generation stage returns
    without error and without adding a row, and leaves the document
    completed at progress 100; so does the job when extraction succeeds
    and the chunker returns no chunk. *)
Theorem empty_chunks_complete (provider : string) (environ : gmap string string)
        (net : nat -> http_outcome) (during : nat -> Session -> Session)
        (pdf_id : string) (db : Session) (pdf : PDF.t) :
  pdfs db !! pdf_id = Some pdf ->
  (let out := the_generate provider environ net during [] pdf_id db in
   snd out = Ok [] /\
   qa_pairs (fst out) = qa_pairs db /\
   status_of pdf_id (fst out) = Some "completed" /\
   progress_of pdf_id (fst out) = Some 100) /\
  (forall text,
     snd (snd (the_extract pdf_id (process_pdf_start pdf_id db))) = Ok text ->
     TextService.chunk_by_headings text = [] ->
     let db' := the_process_pdf environ net during pdf_id db in
     qa_pairs db' = qa_pairs db /\
     status_of pdf_id db' = Some "completed" /\
     progress_of pdf_id db' = Some 100).
Proof.
  intros Hpdf. split.
  - unfold generate_qa_from_chunks. rewrite Hpdf. cbn [qa_loop fst snd].
    unfold status_of, progress_of. rewrite update_pdf_lookup, Hpdf.
    repeat split.
  - intros text Htext Hchunks. unfold process_pdf.
    pose proof (extract_text_keeps pdf_id (process_pdf_start pdf_id db)) as [Hqa Hsome].
    destruct (the_extract pdf_id (process_pdf_start pdf_id db)) as [db2 [tr r]].
    cbn [fst snd] in *. subst r.
    unfold TextService.chunk_text. cbn [String.eqb Ascii.eqb Bool.eqb].
    rewrite Hchunks. unfold generate_qa_from_chunks.
    assert (is_Some (pdfs db2 !! pdf_id)) as Hdb2.
    { apply Hsome. unfold process_pdf_start. rewrite update_pdf_is_Some, Hpdf. eauto. }
    assert (is_Some (pdfs (progress_unless_canceled pdf_id 50
                             (progress_unless_canceled pdf_id 30 db2)) !! pdf_id))
      as [pdf4 Hpdf4].
    { unfold progress_unless_canceled. now rewrite !update_pdf_is_Some. }
    rewrite Hpdf4. cbn [qa_loop].
    unfold status_of, progress_of. rewrite update_pdf_lookup, Hpdf4.
    repeat split. cbn [update_pdf qa_pairs progress_unless_canceled]. exact Hqa.
Qed.

(** C5, as amended. With the hosted backend, no credential, a non-empty
    chunk sequence and a document that is not canceled, the generation
    stage raises the configuration error during the first chunk: after
    that chunk's status and progress write, before any row is added, and
    not as a degraded pair; the handler of the job then marks the
    document failed with the error's message. *)
Theorem missing_key_fails_at_first_chunk (environ : gmap string string)
        (net : nat -> http_outcome) (during : nat -> Session -> Session)
        (chunk : Chunk) (rest : list Chunk)
        (pdf_id : string) (db : Session) (pdf : PDF.t) :
  key_absent environ ->
  pdfs db !! pdf_id = Some pdf ->
  PDF.status pdf <> "canceled" ->
  let e := ValueError "ANTHROPIC_API_KEY not set in environment" in
  let total_chunks := Z.of_nat (length (chunk :: rest)) in
  let db1 := chunk_started scaled_progress pdf_id 0 total_chunks db in
  the_generate "claude" environ net during (chunk :: rest) pdf_id db = (db1, Raise e) /\
  status_of pdf_id db1 = Some (generating 1 total_chunks) /\
  qa_pairs db1 = qa_pairs db /\
  status_of pdf_id (process_failed pdf_id e db1) = Some "failed" /\
  PDF.error <$> pdfs (process_failed pdf_id e db1) !! pdf_id
    = Some (Some "ANTHROPIC_API_KEY not set in environment").
Proof.
  intros Hkey Hpdf Hstatus e total_chunks db1.
  assert (String.eqb (PDF.status pdf) "canceled" = false) as Hneq
    by now apply String.eqb_neq.
  assert (_generate_with_claude json_loads environ (net 0%nat) (content chunk)
            (Some {[ "heading" := heading chunk ]}) = Raise e) as Hgen.
  { unfold _generate_with_claude. destruct Hkey as [-> | ->]; reflexivity. }
  repeat split.
  - unfold generate_qa_from_chunks. rewrite Hpdf. cbn [qa_loop].
    rewrite Hpdf, Hneq. unfold generate_qa_pairs. cbn [String.eqb Ascii.eqb Bool.eqb].
    rewrite Hgen. reflexivity.
  - unfold status_of, db1, chunk_started. rewrite update_pdf_lookup, Hpdf. reflexivity.
  - unfold status_of, process_failed, db1, chunk_started.
    rewrite !update_pdf_lookup, Hpdf. reflexivity.
  - unfold process_failed, db1, chunk_started.
    rewrite !update_pdf_lookup, Hpdf. reflexivity.
Qed.

End PipelineFacts.

(** ** The providers *)

Section ProviderFacts.

Variable json_loads : string -> result json.
Variable scaled_progress : Z -> Z -> Z.

Local Abbreviation the_pairs := (generate_qa_pairs json_loads).
Local Abbreviation the_qa_loop := (qa_loop json_loads scaled_progress).

Lemma section_heading_of_chunk (chunk : Chunk) :
  section_heading_of (Some {[ "heading" := heading chunk ]}) = heading chunk.
Proof.
  unfold section_heading_of.
  destruct (decide (({[ "heading" := heading chunk ]} : gmap string string) = ∅))
    as [E|_].
  - apply (f_equal (fun m => m !! "heading")) in E.
    rewrite lookup_singleton_eq, lookup_empty in E. discriminate.
  - now rewrite lookup_singleton_eq.
Qed.

Lemma claude_with_key environ post text_chunk context :
  key_present environ ->
  _generate_with_claude json_loads environ post text_chunk context
    = try_except (claude_try json_loads post (section_heading_of context))
                 (fun e => Ok [error_pair e (section_heading_of context)]).
Proof.
  intros [k [Hk Hne]]. unfold _generate_with_claude. rewrite Hk.
  destruct k; [congruence | reflexivity].
Qed.

(** The call of a ready backend is its [try] block under its handler. *)
Lemma ready_backend_call provider environ post text_chunk context :
  backend_ready provider environ ->
  the_pairs provider environ post text_chunk context
    = try_except (try_block json_loads provider post (section_heading_of context))
                 (fun e => Ok [error_pair e (section_heading_of context)]).
Proof.
  intros [-> | [-> Hkey]]; unfold generate_qa_pairs, try_block;
    cbn [String.eqb Ascii.eqb Bool.eqb].
  - reflexivity.
  - now apply claude_with_key.
Qed.

Lemma add_error_pair pdf_id chunk e h db :
  add_pairs pdf_id chunk [error_pair e h] db
    = (add_row (error_row pdf_id e h) db, Ok [error_row pdf_id e h]).
Proof. reflexivity. Qed.

(** C3. For both backends, once the request is made, no exception leaves
    [generate_qa_pairs]: a failure of the transport, of the status check
    or of the decoding makes the [try] block raise, and whatever the
    [try] block raises is returned as exactly one pair of type [error]
    whose answer carries the message; the loop stores that pair and goes
    on with the next chunk. *)
Theorem provider_errors_degrade (provider : string) (environ : gmap string string) :
  backend_ready provider environ ->
  (forall post text_chunk context,
     let h := section_heading_of context in
     let out := the_pairs provider environ post text_chunk context in
     (exists pairs, out = Ok pairs) /\
     (forall e, request_fails post e ->
                try_block json_loads provider post h = Raise e) /\
     (forall e, try_block json_loads provider post h = Raise e ->
        out = Ok [error_pair e h] /\
        PyObj.getitem (error_pair e h) "type" = Ok (JStr "error") /\
        PyObj.getitem (error_pair e h) "answer"
          = Ok (JStr ("API error: " +:+ exn_str e)))) /\
  (forall net during pdf_id total_chunks i chunk rest all_qa_pairs db pdf e,
     pdfs db !! pdf_id = Some pdf ->
     PDF.status pdf <> "canceled" ->
     try_block json_loads provider (net i) (heading chunk) = Raise e ->
     let row := error_row pdf_id e (heading chunk) in
     the_qa_loop provider environ net during pdf_id total_chunks i
                 (chunk :: rest) all_qa_pairs db
     = the_qa_loop provider environ net during pdf_id total_chunks (S i)
                   rest (all_qa_pairs ++ [row])
                   (add_row row
                      (during i (chunk_started scaled_progress pdf_id i total_chunks db)))).
Proof.
  intros Hready. split.
  - intros post text_chunk context h out. subst out.
    rewrite (ready_backend_call _ _ _ _ _ Hready). fold h.
    split; [|split].
    + destruct (try_block json_loads provider post h); eexists; reflexivity.
    + intros e Hfail. unfold try_block.
      destruct (String.eqb provider "claude");
        destruct Hfail as [-> | [[body ->] | ->]]; reflexivity.
    + intros e He. rewrite He. repeat split.
  - intros net during pdf_id total_chunks i chunk rest all_qa_pairs db pdf e
           Hpdf Hstatus He row.
    cbn [qa_loop]. rewrite Hpdf.
    assert (String.eqb (PDF.status pdf) "canceled" = false) as ->
      by now apply String.eqb_neq.
    rewrite (ready_backend_call _ _ _ _ _ Hready), section_heading_of_chunk, He.
    cbn [try_except]. rewrite add_error_pair. reflexivity.
Qed.

(** C4, on the code. When the model wraps its array in prose, so that
    the span from the first [[] to the last []] decodes and the whole
    reply does not, the local backend decodes the span and the hosted
    backend gives the whole reply to the decoder and returns the degraded
    pair. *)
Theorem claude_decodes_whole_reply (environ : gmap string string)
        (text_chunk : string) (context : option (gmap string string))
        (reply span : string) (qa : json) (e : exn) :
  key_present environ ->
  clean_json (JStr reply) = Ok span ->
  json_loads span = Ok qa ->
  json_loads reply = Raise e ->
  let h := section_heading_of context in
  _generate_with_ollama json_loads environ (ollama_response reply) text_chunk context
    = try_except (stamp_section h qa) (fun e' => Ok [error_pair e' h]) /\
  _generate_with_claude json_loads environ (claude_response reply) text_chunk context
    = Ok [error_pair e h].
Proof.
  intros Hkey Hspan Hqa Hreply h. split.
  - unfold _generate_with_ollama, ollama_try, ollama_response. fold h.
    cbn [post_json rbind PyObj.get PyObj.assoc String.eqb Ascii.eqb Bool.eqb
         from_option id].
    rewrite Hspan. cbn [rbind]. rewrite Hqa. reflexivity.
  - rewrite (claude_with_key _ _ _ _ Hkey). fold h.
    unfold claude_try, claude_response.
    cbn [post_json rbind PyObj.get PyObj.assoc String.eqb Ascii.eqb Bool.eqb
         from_option id PyObj.iter first_text PyObj.eq_str loads].
    rewrite Hreply. reflexivity.
Qed.

End ProviderFacts.

(** ** The properties at concrete inputs *)

Lemma extraction_falls_back_to_ocr_witness :
  pdfs (store "uploaded" 0) !! "d1" = Some (doc "uploaded" 0) /\
  snd (_extract_with_ocr string scan_convert scan_ocr "storage/pdfs/d1.pdf")
    = Ok (pages_from 1 ["first page"; "second page"]).
Proof.
  assert (pdfs (store "uploaded" 0) !! "d1" = Some (doc "uploaded" 0)) as Hpdf
    by (vm_compute; reflexivity).
  split; [exact Hpdf|].
  pose proof (extraction_falls_back_to_ocr string scan_pdfminer scan_convert scan_ocr
                scan_count scan_write "d1" (store "uploaded" 0) (doc "uploaded" 0) Hpdf)
    as H.
  cbv zeta in H. destruct H as [_ [_ Hocr]].
  apply (Hocr ["first page"; "second page"] ["first page"; "second page"]).
  - reflexivity.
  - repeat constructor.
Defined.

(** The scanned file: pdfminer reads nothing, both pages are recognised. *)
Example extract_text_scanned :
  extract_text string scan_pdfminer scan_convert scan_ocr scan_count scan_write
               "d1" (store "uploaded" 0)
  = (mkSession {[ "d1" := PDF.set_page_count 2 (doc "processing" 0) ]} [],
     ([Pdfminer "storage/pdfs/d1.pdf"; ConvertFromPath "storage/pdfs/d1.pdf";
       ImageToString 0; ImageToString 1; PdfReader "storage/pdfs/d1.pdf";
       WriteText "storage/results/d1_text.txt"],
      Ok (PyStr.NL +:+ PyStr.NL +:+ "--- Page 1 ---" +:+ PyStr.NL +:+ PyStr.NL
          +:+ "first page"
          +:+ PyStr.NL +:+ PyStr.NL +:+ "--- Page 2 ---" +:+ PyStr.NL +:+ PyStr.NL
          +:+ "second page"))).
Proof. vm_compute. reflexivity. Qed.

Lemma terminal_kept_where_guarded_witness :
  pdfs (store "completed" 100) !! "d1" = Some (doc "completed" 100) /\
  guards OpCancel "completed" = true /\
  run_op json_loads_examples scaled_progress_exact string scan_pdfminer scan_convert
         scan_ocr scan_count scan_write OpCancel "d1" (store "completed" 100)
    = store "completed" 100.
Proof.
  assert (pdfs (store "completed" 100) !! "d1" = Some (doc "completed" 100)) as Hpdf
    by (vm_compute; reflexivity).
  split; [exact Hpdf|]. split; [reflexivity|].
  apply (terminal_kept_where_guarded json_loads_examples scaled_progress_exact string
           scan_pdfminer scan_convert scan_ocr scan_count scan_write
           OpCancel "d1" (store "completed" 100) (doc "completed" 100) Hpdf).
  reflexivity.
Defined.

(** C2 as stated fails at the start of the background job, which writes
    [processing] over any status: over [completed], and over the
    [canceled] of a document canceled while it was still [uploaded]. So
    does the extraction, and the generation stage writes [completed] over
    [canceled] when there is no chunk. *)
Lemma start_leaves_terminal_state :
  terminal "completed" = true /\
  status_of "d1" (store "completed" 100) = Some "completed" /\
  status_of "d1" (process_pdf_start "d1" (store "completed" 100)) = Some "processing" /\
  terminal "canceled" = true /\
  status_of "d1" (process_pdf_start "d1" (store "canceled" 0)) = Some "processing" /\
  status_of "d1" (run_op json_loads_examples scaled_progress_exact string scan_pdfminer
                         scan_convert scan_ocr scan_count scan_write
                         OpExtract "d1" (store "completed" 100)) = Some "processing" /\
  status_of "d1" (run_op json_loads_examples scaled_progress_exact string scan_pdfminer
                         scan_convert scan_ocr scan_count scan_write
                         (OpGenerate "claude" ∅ offline nobody []) "d1"
                         (store "canceled" 0)) = Some "completed" /\
  ~ keeps_terminal process_pdf_start.
Proof.
  repeat split; try (vm_compute; reflexivity).
  intros H. specialize (H (store "completed" 100) "d1" (doc "completed" 100)).
  vm_compute in H. specialize (H eq_refl eq_refl). discriminate H.
Qed.

Lemma empty_chunks_complete_witness :
  pdfs (store "processing" 50) !! "d1" = Some (doc "processing" 50) /\
  status_of "d1"
    (fst (generate_qa_from_chunks json_loads_examples scaled_progress_exact
            "claude" ∅ offline nobody [] "d1" (store "processing" 50)))
    = Some "completed".
Proof.
  assert (pdfs (store "processing" 50) !! "d1" = Some (doc "processing" 50)) as Hpdf
    by (vm_compute; reflexivity).
  split; [exact Hpdf|].
  pose proof (empty_chunks_complete json_loads_examples scaled_progress_exact string
                scan_pdfminer scan_convert scan_ocr scan_count scan_write
                "claude" ∅ offline nobody "d1" (store "processing" 50)
                (doc "processing" 50) Hpdf) as [H _].
  cbv zeta in H. apply H.
Defined.

Lemma missing_key_fails_at_first_chunk_witness :
  key_absent ∅ /\
  generate_qa_from_chunks json_loads_examples scaled_progress_exact
    "claude" ∅ offline nobody [mkChunk "# Intro" "Hello world."] "d1"
    (store "processing" 50)
  = (chunk_started scaled_progress_exact "d1" 0 1 (store "processing" 50),
     Raise (ValueError "ANTHROPIC_API_KEY not set in environment")).
Proof.
  assert (key_absent ∅) as Hkey by (left; reflexivity).
  split; [exact Hkey|].
  assert (pdfs (store "processing" 50) !! "d1" = Some (doc "processing" 50)) as Hpdf
    by (vm_compute; reflexivity).
  pose proof (missing_key_fails_at_first_chunk json_loads_examples scaled_progress_exact
                ∅ offline nobody (mkChunk "# Intro" "Hello world.") []
                "d1" (store "processing" 50) (doc "processing" 50) Hkey Hpdf) as H.
  cbv zeta in H. apply H. discriminate.
Defined.

(** C5 as stated fails: with one chunk the error comes after the status
    write [analyzing_chunk_1_of_1], so the store is not as it was; with no
    chunk there is no error at all and the document is completed. *)
Lemma missing_key_not_raised_up_front :
  let run chunks :=
    generate_qa_from_chunks json_loads_examples scaled_progress_exact
      "claude" ∅ offline nobody chunks "d1" (store "processing" 50) in
  key_absent ∅ /\
  snd (run [mkChunk "# Intro" "Hello world."])
    = Raise (ValueError "ANTHROPIC_API_KEY not set in environment") /\
  status_of "d1" (fst (run [mkChunk "# Intro" "Hello world."]))
    = Some "analyzing_chunk_1_of_1" /\
  ~ fails_untouched (run [mkChunk "# Intro" "Hello world."]) (store "processing" 50) /\
  snd (run []) = Ok [] /\
  status_of "d1" (fst (run [])) = Some "completed" /\
  ~ fails_untouched (run []) (store "processing" 50).
Proof.
  cbv zeta. repeat split; try (vm_compute; reflexivity).
  - left; reflexivity.
  - intros [e He].
    apply (f_equal (fun out => status_of "d1" (fst out))) in He.
    vm_compute in He. discriminate He.
  - intros [e He]. apply (f_equal snd) in He. vm_compute in He. discriminate He.
Qed.

Lemma provider_errors_degrade_witness :
  backend_ready "ollama" ∅ /\
  generate_qa_pairs json_loads_examples "ollama" ∅
    (PostRaises (ExternalError "All connection attempts failed")) "Hello world."
    (Some {[ "heading" := "# Intro" ]})
  = Ok [error_pair (ExternalError "All connection attempts failed")
                   (section_heading_of (Some {[ "heading" := "# Intro" ]}))].
Proof.
  assert (backend_ready "ollama" ∅) as Hready by (left; reflexivity).
  split; [exact Hready|].
  pose proof (provider_errors_degrade json_loads_examples scaled_progress_exact
                "ollama" ∅ Hready) as [H _].
  specialize (H (PostRaises (ExternalError "All connection attempts failed"))
                "Hello world." (Some {[ "heading" := "# Intro" ]})).
  cbv zeta in H. destruct H as [_ [_ H]].
  apply (H (ExternalError "All connection attempts failed")). reflexivity.
Defined.

Lemma claude_decodes_whole_reply_witness :
  key_present {[ "ANTHROPIC_API_KEY" := "sk-test" ]} /\
  clean_json (JStr wrapped_reply) = Ok one_pair_json /\
  _generate_with_claude json_loads_examples {[ "ANTHROPIC_API_KEY" := "sk-test" ]}
    (claude_response wrapped_reply) "Hello world." (Some {[ "heading" := "# Intro" ]})
  = Ok [error_pair expecting_value
                   (section_heading_of (Some {[ "heading" := "# Intro" ]}))].
Proof.
  assert (key_present {[ "ANTHROPIC_API_KEY" := "sk-test" ]}) as Hkey.
  { exists "sk-test". split; [vm_compute; reflexivity | discriminate]. }
  assert (clean_json (JStr wrapped_reply) = Ok one_pair_json) as Hspan
    by (vm_compute; reflexivity).
  split; [exact Hkey|]. split; [exact Hspan|].
  pose proof (claude_decodes_whole_reply json_loads_examples
                {[ "ANTHROPIC_API_KEY" := "sk-test" ]} "Hello world."
                (Some {[ "heading" := "# Intro" ]})
                wrapped_reply one_pair_json one_pair expecting_value
                Hkey Hspan) as H.
  cbv zeta in H. apply H; vm_compute; reflexivity.
Defined.

(** The same reply at both backends: the local one returns the pair with
    its section, the hosted one the degraded pair. Without the prose the
    hosted one returns the pair too. *)
Example wrapped_reply_at_both_backends :
  let environ : gmap string string := {[ "ANTHROPIC_API_KEY" := "sk-test" ]} in
  let context : option (gmap string string) := Some {[ "heading" := "# Intro" ]} in
  _generate_with_ollama json_loads_examples environ (ollama_response wrapped_reply)
                        "Hello world." context
  = Ok [JDict [("question", JStr "Q"); ("answer", JStr "A"); ("type", JStr "factual");
               ("section", JStr "# Intro")]] /\
  _generate_with_claude json_loads_examples environ (claude_response wrapped_reply)
                        "Hello world." context
  = Ok [JDict [("question", JStr "Error generating Q&A");
               ("answer", JStr "API error: Expecting value: line 1 column 1 (char 0)");
               ("type", JStr "error"); ("section", JStr "# Intro")]] /\
  _generate_with_claude json_loads_examples environ (claude_response one_pair_json)
                        "Hello world." context
  = Ok [JDict [("question", JStr "Q"); ("answer", JStr "A"); ("type", JStr "factual");
               ("section", JStr "# Intro")]].
Proof. cbv zeta. repeat split; vm_compute; reflexivity. Qed.

(** A job of two chunks in which a cancellation request arrives during
    each provider call: both requests are rejected, both chunks' rows are
    stored and the document ends completed. *)
Example cancel_requests_during_generation :
  let cancel_request (i : nat) (db : Session) := fst (cancel_pdf_processing "d1" db) in
  let out :=
    generate_qa_from_chunks json_loads_examples scaled_progress_exact
      "ollama" ∅ offline cancel_request
      [mkChunk "# Intro" "Hello world."; mkChunk "# Details" "More text here."]
      "d1" (store "processing" 50) in
  status_of "d1" (fst out) = Some "completed" /\
  progress_of "d1" (fst out) = Some 100 /\
  QAPair.section <$> qa_pairs (fst out) = [JStr "# Intro"; JStr "# Details"].
Proof. cbv zeta. repeat split; vm_compute; reflexivity. Qed.

(** ** The status endpoint *)

Module StatusFacts.
Import PyStr PyStrFacts.

Lemma text_app l1 l2 : text (l1 ++ l2) = text l1 +:+ text l2.
Proof.
  induction l1 as [|c l1 IH]; [reflexivity|].
  change (String c (text (l1 ++ l2)) = String c (text l1 +:+ text l2)).
  now rewrite IH.
Qed.

Lemma lstrip_head c l : isspace c = false -> lstrip (c :: l) = c :: l.
Proof. intros H. simpl. now rewrite H. Qed.

(** Stripping leaves a text alone whose first and last characters are
    not whitespace. *)
Lemma strip_chars_ends l c1 c2 l1 l2 :
  l = c1 :: l1 -> l = l2 ++ [c2] ->
  isspace c1 = false -> isspace c2 = false ->
  strip_chars l = l.
Proof.
  intros H1 H2 Hc1 Hc2. unfold strip_chars, rstrip.
  rewrite H1, (lstrip_head _ _ Hc1), <- H1, H2.
  rewrite rev_app_distr. cbn [rev app]. rewrite (lstrip_head _ _ Hc2).
  change (c2 :: rev l2) with (rev [c2] ++ rev l2).
  now rewrite <- rev_app_distr, rev_involutive.
Qed.

Lemma nonempty_last {A} (l : list A) : l <> [] -> exists l' x, l = l' ++ [x].
Proof.
  intros H. destruct (rev l) as [|x r] eqn:E.
  - apply (f_equal (@rev A)) in E. rewrite rev_involutive in E. contradiction.
  - exists (rev r), x. apply (f_equal (@rev A)) in E.
    now rewrite rev_involutive in E.
Qed.

Lemma strip_chars_word w : word w -> strip_chars w = w.
Proof.
  intros [Hne Hw]. destruct w as [|c1 l1] eqn:E; [congruence|].
  destruct (nonempty_last (c1 :: l1)) as [l2 [c2 E2]]; [congruence|].
  apply (strip_chars_ends _ c1 c2 l1 l2); auto.
  - now inversion Hw.
  - rewrite E2 in Hw. apply Forall_app in Hw as [_ Hw]. now inversion Hw.
Qed.

(** A decimal digit is no whitespace, no underscore and no sign. *)
Definition digit (c : ascii) : Prop := is_Some (PyInt.digit_value c).

Lemma digit_plain c :
  digit c ->
  isspace c = false /\ Ascii.eqb c "_" = false /\
  Ascii.eqb c "-" = false /\ Ascii.eqb c "+" = false.
Proof.
  unfold digit, PyInt.digit_value. intros [d Hd].
  destruct (Re.in_range "0" "9" c) eqn:Hr; [clear Hd|discriminate].
  destruct c as [[] [] [] [] [] [] [] []]; try discriminate Hr; repeat split.
Qed.

Lemma pretty_N_char_digit d :
  (d < 10)%N -> PyInt.digit_value (pretty_N_char d) = Some (Z.of_N d).
Proof.
  intros H.
  assert (d = 0 \/ d = 1 \/ d = 2 \/ d = 3 \/ d = 4 \/ d = 5 \/ d = 6 \/ d = 7
          \/ d = 8 \/ d = 9)%N as Hd by lia.
  repeat (destruct Hd as [->|Hd]; [reflexivity|]). now subst.
Qed.

(** The value [int] reads from a run of digits, after [acc]. *)
Definition dec_value (acc : Z) (ds : list ascii) : Z :=
  fold_left (fun a c => 10 * a + default 0 (PyInt.digit_value c)) ds acc.

Lemma digits_go_decimal ds : forall acc after,
  Forall digit ds -> (ds <> [] \/ after = true) ->
  PyInt.digits_go acc after ds = Some (dec_value acc ds).
Proof.
  induction ds as [|c ds IH]; intros acc after Hds Hne.
  - destruct Hne as [Hne| ->]; [congruence | reflexivity].
  - inversion Hds as [|? ? Hc Hds']; subst.
    destruct (digit_plain c Hc) as [_ [Hu _]]. destruct Hc as [d Hd].
    cbn [PyInt.digits_go]. rewrite Hu, Hd.
    rewrite IH by auto. unfold dec_value. cbn [fold_left]. now rewrite Hd.
Qed.

(** [str(x)] of a positive number is a non-empty run of digits that
    [int] reads back as [x]. *)
Lemma pretty_N_go_decimal x : forall s,
  (0 < x)%N ->
  exists ds, pretty_N_go x s = text ds +:+ s /\ ds <> [] /\ Forall digit ds /\
             dec_value 0 ds = Z.of_N x.
Proof.
  induction (N.lt_wf_0 x) as [x _ IH]. intros s Hx.
  rewrite pretty_N_go_step by exact Hx.
  set (q := (x `div` 10)%N). set (r := (x `mod` 10)%N).
  assert (r < 10)%N as Hmod by (apply N.mod_lt; lia).
  assert (x = 10 * q + r)%N as Hx10 by (apply N.div_mod; lia).
  pose proof (pretty_N_char_digit _ Hmod) as Hd. clearbody q r.
  destruct (N.eq_dec q 0%N) as [Hz|Hnz].
  - rewrite Hz, pretty_N_go_0. exists [pretty_N_char r].
    split; [reflexivity|]. split; [congruence|]. split.
    + constructor; [unfold digit; rewrite Hd; eauto | constructor].
    + unfold dec_value. cbn [fold_left]. rewrite Hd. cbn [default id]. lia.
  - destruct (IH q) with (s := String (pretty_N_char r) s)
      as [ds [Hgo [Hne [Hds Hval]]]].
    + lia.
    + lia.
    + exists (ds ++ [pretty_N_char r]). split; [|split; [|split]].
      * rewrite Hgo, text_app. clear. induction (text ds) as [|a t IHt]; [reflexivity|].
        change (String a (t +:+ String (pretty_N_char r) s)
                = String a ((t +:+ text [pretty_N_char r]) +:+ s)).
        now rewrite IHt.
      * intros E. apply app_eq_nil in E as [_ E]. discriminate.
      * apply Forall_app. split; [exact Hds|].
        constructor; [unfold digit; rewrite Hd; eauto | constructor].
      * unfold dec_value in *. rewrite fold_left_app. cbn [fold_left].
        rewrite Hval, Hd. cbn [default id]. lia.
Qed.

Lemma pretty_Z_decimal z :
  0 <= z ->
  exists ds, pretty z = text ds /\ ds <> [] /\ Forall digit ds /\ dec_value 0 ds = z.
Proof.
  intros Hz. destruct z as [|p|p]; [| |lia].
  - exists ["0"%char]. split; [reflexivity|]. split; [congruence|]. split.
    + constructor; [now exists 0 | constructor].
    + reflexivity.
  - destruct (pretty_N_go_decimal (N.pos p) "" ltac:(lia)) as [ds [Hgo H]].
    exists ds. split; [|exact H].
    change (pretty (Z.pos p)) with (pretty_N_go (N.pos p) "").
    rewrite Hgo. clear. induction (text ds) as [|a t IHt]; [reflexivity|].
    change (String a (t +:+ "") = String a t). now rewrite IHt.
Qed.

(** [int(str(z)) == z] *)
Lemma int_pretty z : 0 <= z -> PyInt.int (pretty z) = Ok z.
Proof.
  intros Hz. destruct (pretty_Z_decimal z Hz) as [ds [-> [Hne [Hds Hval]]]].
  unfold PyInt.int. rewrite chars_text.
  assert (word ds) as Hw.
  { split; [exact Hne|]. eapply Forall_impl; [exact Hds|].
    intros c Hc. apply (digit_plain c Hc). }
  rewrite (strip_chars_word _ Hw). unfold PyInt.signed_digits.
  destruct ds as [|c ds]; [congruence|].
  inversion Hds as [|? ? Hc _]; subst.
  destruct (digit_plain c Hc) as [_ [_ [-> ->]]].
  rewrite digits_go_decimal by auto. reflexivity.
Qed.

(** Splitting at [sep] a run without [sep]. *)
Lemma split_on_go_run sep w : forall cur l,
  Forall (fun c => Ascii.eqb c sep = false) w ->
  split_on_go sep cur (w ++ l) = split_on_go sep (rev w ++ cur) l.
Proof.
  induction w as [|c w IH]; intros cur l Hw; [reflexivity|].
  inversion Hw as [|? ? Hc Hw']; subst. simpl. rewrite Hc.
  rewrite IH by assumption. now rewrite <- app_assoc.
Qed.

Lemma generating_parts i n :
  0 <= i -> 0 <= n ->
  split_on "_" (generating i n) = ["analyzing"; "chunk"; pretty i; "of"; pretty n].
Proof.
  intros Hi Hn.
  destruct (pretty_Z_decimal i Hi) as [di [Ei [_ [Hdi _]]]].
  destruct (pretty_Z_decimal n Hn) as [dn [En [_ [Hdn _]]]].
  assert (forall ds, Forall digit ds -> Forall (fun c => Ascii.eqb c "_" = false) ds)
    as Hplain.
  { intros ds H. eapply Forall_impl; [exact H|]. intros c Hc. apply (digit_plain c Hc). }
  unfold generating, split_on. rewrite Ei, En.
  change "analyzing_chunk_" with (text (chars "analyzing_chunk_")).
  change "_of_" with (text (chars "_of_")).
  rewrite <- !text_app, chars_text.
  cbn [chars list_ascii_of_string app split_on_go Ascii.eqb Bool.eqb rev].
  rewrite (split_on_go_run "_" di) by auto.
  cbn [app split_on_go Ascii.eqb Bool.eqb rev].
  rewrite <- (app_nil_r dn), (split_on_go_run "_" dn) by auto.
  cbn [split_on_go fmap list_fmap]. rewrite !app_nil_r, !rev_involutive.
  reflexivity.
Qed.

End StatusFacts.

(** X1. The status written by the generation loop is read back by the
    status endpoint: for a document whose status is
    [analyzing_chunk_i_of_n] the reply carries that status, the stored
    progress and the message [Generating Q&A pairs (i/n chunks)...]. *)
Theorem status_message_reads_chunk_counter (pdf_id : string) (db : Session)
        (pdf : PDF.t) (i n : Z) :
  pdfs db !! pdf_id = Some pdf ->
  PDF.status pdf = generating i n ->
  0 <= i -> 0 <= n ->
  get_pdf_status pdf_id db
    = inl (PDFStatus.mk (PDF.id pdf) (generating i n) (PDF.progress pdf)
             ("Generating Q&A pairs (" +:+ pretty i +:+ "/" +:+ pretty n
              +:+ " chunks)...")).
Proof.
  intros Hpdf Hstatus Hi Hn. unfold get_pdf_status. rewrite Hpdf, Hstatus.
  assert (String.eqb (generating i n) "uploaded" = false) as ->.
  { apply String.eqb_neq. unfold generating. cbv [String.append]. discriminate. }
  assert (String.eqb (generating i n) "processing" = false) as ->.
  { apply String.eqb_neq. unfold generating. cbv [String.append]. discriminate. }
  assert (String.prefix "analyzing_chunk" (generating i n) = true) as ->.
  { unfold generating. cbv [String.append]. reflexivity. }
  unfold chunk_message. rewrite (StatusFacts.generating_parts i n Hi Hn).
  cbn [length Nat.leb index_list lookup list_lookup].
  unfold int_of. rewrite !StatusFacts.int_pretty by assumption. reflexivity.
Qed.

Lemma status_message_reads_chunk_counter_witness :
  get_pdf_status "d1" (store (generating 2 7) 61)
    = inl (PDFStatus.mk "d1" "analyzing_chunk_2_of_7" 61
             "Generating Q&A pairs (2/7 chunks)...").
Proof.
  apply (status_message_reads_chunk_counter "d1" _ (doc (generating 2 7) 61) 2 7).
  - vm_compute. reflexivity.
  - reflexivity.
  - lia.
  - lia.
Defined.

(** ** The generation loop as a whole *)

Section GenerationFacts.

Variable json_loads : string -> result json.
Variable scaled_progress : Z -> Z -> Z.

Local Abbreviation g_pairs := (generate_qa_pairs json_loads).
Local Abbreviation g_loop := (qa_loop json_loads scaled_progress).
Local Abbreviation g_run := (generate_qa_from_chunks json_loads scaled_progress).

Lemma generating_not_canceled i n : String.eqb (generating i n) "canceled" = false.
Proof. apply String.eqb_neq. unfold generating. cbv [String.append]. discriminate. Qed.

(** A cancellation request made while a chunk's call is awaited finds the
    status the loop has just written, and is rejected. *)
Lemma cancel_during_call sched pdf_id j f a b db pdf :
  (forall p, PDF.status (f p) = generating a b) ->
  pdfs db !! pdf_id = Some pdf ->
  cancel_requests sched pdf_id j (update_pdf pdf_id f db) = update_pdf pdf_id f db.
Proof.
  intros Hf Hpdf. unfold cancel_requests. destruct (sched j); [|reflexivity].
  unfold cancel_pdf_processing. rewrite update_pdf_lookup, Hpdf.
  cbn [fmap option_fmap option_map]. rewrite Hf.
  rewrite bool_decide_eq_false_2; [reflexivity|]. apply generating_not_cancellable.
Qed.

Lemma loop_ignores_cancel provider environ net sched pdf_id total_chunks :
  forall chunks i all_qa_pairs db,
  g_loop provider environ net (cancel_requests sched pdf_id) pdf_id total_chunks
         i chunks all_qa_pairs db
  = g_loop provider environ net nobody pdf_id total_chunks i chunks all_qa_pairs db.
Proof.
  induction chunks as [|chunk rest IH]; intros i acc db; cbn [qa_loop]; [reflexivity|].
  destruct (pdfs db !! pdf_id) as [pdf|] eqn:Hpdf; [|reflexivity].
  destruct (String.eqb (PDF.status pdf) "canceled"); [reflexivity|].
  destruct (g_pairs provider environ (net i) (content chunk)
                    (Some {[ "heading" := heading chunk ]})) as [pairs|e];
    [|reflexivity].
  erewrite cancel_during_call; [|intros p; reflexivity|exact Hpdf].
  change (nobody i ?d) with d.
  destruct (add_pairs pdf_id chunk pairs _) as [db2 [rows|e]]; [apply IH|reflexivity].
Qed.

Lemma run_ignores_cancel provider environ net sched
      chunks pdf_id db :
  g_run provider environ net (cancel_requests sched pdf_id) chunks pdf_id db
  = g_run provider environ net nobody chunks pdf_id db.
Proof. unfold generate_qa_from_chunks. now rewrite loop_ignores_cancel. Qed.

(** X2. Cancellation requests made during the provider calls of a
    generation run change nothing: whatever the provider, the network, the
    chunks and the store, the run ends in the same store with the same
    result as a run during which no request is made. *)
Theorem cancel_requests_do_not_stop_generation (provider : string)
        (environ : gmap string string) (net : nat -> http_outcome)
        (sched : nat -> bool) (chunks : list Chunk) (pdf_id : string) (db : Session) :
  g_run provider environ net (cancel_requests sched pdf_id) chunks pdf_id db
  = g_run provider environ net nobody chunks pdf_id db.
Proof. apply run_ignores_cancel. Qed.



Lemma update_pdf_other pdf_id f db other :
  other <> pdf_id -> pdfs (update_pdf pdf_id f db) !! other = pdfs db !! other.
Proof. intros H. apply lookup_alter_ne. congruence. Qed.



End GenerationFacts.

Section GenerationRuns.

Variable json_loads : string -> result json.
Variable scaled_progress : Z -> Z -> Z.

Local Abbreviation r_pairs := (generate_qa_pairs json_loads).
Local Abbreviation r_loop := (qa_loop json_loads scaled_progress).
Local Abbreviation r_run := (generate_qa_from_chunks json_loads scaled_progress).

Lemma request_fails_try_block provider post h e :
  request_fails post e -> try_block json_loads provider post h = Raise e.
Proof.
  intros Hfail. unfold try_block.
  destruct (String.eqb provider "claude");
    destruct Hfail as [-> | [[body ->] | ->]]; reflexivity.
Qed.

Lemma loop_all_failed provider environ net errs pdf_id total_chunks :
  backend_ready provider environ ->
  (forall i, request_fails (net i) (errs i)) ->
  forall chunks i all_qa_pairs db pdf,
  pdfs db !! pdf_id = Some pdf ->
  PDF.status pdf <> "canceled" ->
  exists db',
    r_loop provider environ net nobody pdf_id total_chunks i chunks all_qa_pairs db
      = (db', Ok (RanOut (all_qa_pairs ++ error_rows pdf_id errs i chunks))) /\
    qa_pairs db' = qa_pairs db ++ error_rows pdf_id errs i chunks /\
    is_Some (pdfs db' !! pdf_id).
Proof.
  intros Hready Hnet.
  induction chunks as [|chunk rest IH]; intros i acc db pdf Hpdf Hstatus.
  - exists db. cbn [qa_loop error_rows]. rewrite !app_nil_r, Hpdf. eauto.
  - cbn [qa_loop error_rows]. rewrite Hpdf.
    assert (String.eqb (PDF.status pdf) "canceled" = false) as ->
      by now apply String.eqb_neq.
    rewrite (ready_backend_call json_loads _ _ _ _ _ Hready), section_heading_of_chunk.
    rewrite (request_fails_try_block _ _ _ _ (Hnet i)). cbn [try_except].
    change (nobody i ?d) with d. rewrite add_error_pair.
    set (row := error_row pdf_id (errs i) (heading chunk)).
    set (db1 := update_pdf pdf_id _ db).
    destruct (IH (S i) (acc ++ [row]) (add_row row db1)
                 (PDF.set_status (generating (Z.of_nat i + 1) total_chunks)
                    (PDF.set_progress (50 + scaled_progress (Z.of_nat i) total_chunks) pdf)))
      as [db' [Hloop [Hqa Hsome]]].
    + cbn [add_row pdfs]. unfold db1. rewrite update_pdf_lookup, Hpdf. reflexivity.
    + cbn [PDF.status PDF.set_status]. intros E.
      pose proof (generating_not_canceled (Z.of_nat i + 1) total_chunks) as Hg.
      rewrite E in Hg. discriminate.
    + exists db'. rewrite Hloop, Hqa. cbn [add_row qa_pairs update_pdf db1].
      rewrite <- !app_assoc. auto.
Qed.

(** X3. When every provider call of a run fails (transport, status or
    body), a ready backend and a document that is not canceled still give
    a completed job: exactly one degraded row per chunk, in chunk order
    and under the chunk's heading, is stored and returned, and the
    document ends completed at progress 100. *)
Theorem failed_calls_one_row_per_chunk (provider : string)
        (environ : gmap string string) (net : nat -> http_outcome)
        (sched : nat -> bool) (errs : nat -> exn) (chunks : list Chunk)
        (pdf_id : string) (db : Session) (pdf : PDF.t) :
  backend_ready provider environ ->
  pdfs db !! pdf_id = Some pdf ->
  PDF.status pdf <> "canceled" ->
  (forall i, request_fails (net i) (errs i)) ->
  let out := r_run provider environ net (cancel_requests sched pdf_id) chunks pdf_id db in
  snd out = Ok (error_rows pdf_id errs 0 chunks) /\
  qa_pairs (fst out) = qa_pairs db ++ error_rows pdf_id errs 0 chunks /\
  status_of pdf_id (fst out) = Some "completed" /\
  progress_of pdf_id (fst out) = Some 100.
Proof.
  intros Hready Hpdf Hstatus Hnet out. subst out.
  rewrite (run_ignores_cancel json_loads scaled_progress).
  unfold generate_qa_from_chunks. rewrite Hpdf.
  destruct (loop_all_failed provider environ net errs pdf_id
              (Z.of_nat (length chunks)) Hready Hnet chunks 0%nat [] db pdf Hpdf Hstatus)
    as [db' [-> [Hqa [pdf' Hpdf']]]].
  cbn [fst snd app]. unfold status_of, progress_of.
  rewrite update_pdf_lookup, Hpdf'. repeat split. exact Hqa.
Qed.

End GenerationRuns.

Section GenerationRows.

Variable json_loads : string -> result json.
Variable scaled_progress : Z -> Z -> Z.

Local Abbreviation w_pairs := (generate_qa_pairs json_loads).
Local Abbreviation w_loop := (qa_loop json_loads scaled_progress).
Local Abbreviation w_run := (generate_qa_from_chunks json_loads scaled_progress).





End GenerationRows.

(** ** Extraction and the job as a whole *)

Section JobFacts.

Variable json_loads : string -> result json.
Variable scaled_progress : Z -> Z -> Z.
Variable Image : Type.
Variable pdfminer_extract_text : string -> result string.
Variable convert_from_path : string -> result (list Image).
Variable image_to_string : Image -> result string.
Variable count_pages : string -> result Z.
Variable write_text : string -> string -> result unit.

Local Abbreviation j_ocr_loop := (ocr_loop Image image_to_string).
Local Abbreviation j_ocr := (_extract_with_ocr Image convert_from_path image_to_string).
Local Abbreviation j_extract :=
  (extract_text Image pdfminer_extract_text convert_from_path image_to_string
                count_pages write_text).
Local Abbreviation j_process :=
  (process_pdf json_loads scaled_progress Image pdfminer_extract_text
               convert_from_path image_to_string count_pages write_text).


Lemma extract_text_cases pdf_id db pdf :
  pdfs db !! pdf_id = Some pdf ->
  let out := j_extract pdf_id db in
  qa_pairs (fst out) = qa_pairs db /\
  (forall other, other <> pdf_id -> pdfs (fst out) !! other = pdfs db !! other) /\
  ((exists text n,
      snd (snd out) = Ok text /\ count_pages (PDF.file_path pdf) = Ok n /\
      pdfs (fst out) !! pdf_id
        = Some (PDF.set_page_count n (PDF.set_status "processing" pdf))) \/
   (exists e pdf',
      snd (snd out) = Raise (HTTPException 500 ("Error extracting text: " +:+ exn_str e)) /\
      pdfs (fst out) !! pdf_id = Some pdf' /\
      PDF.status pdf' = "failed" /\ PDF.error pdf' = Some (exn_str e) /\
      PDF.progress pdf' = PDF.progress pdf)).
Proof.
  intros Hpdf. cbn zeta. unfold extract_text. rewrite Hpdf.
  destruct (extract_or_ocr _ _ _ _ _) as [t1 [x|e]].
  - destruct (count_pages (PDF.file_path pdf)) as [n|e] eqn:Hn.
    + destruct (write_text _ x) as [[]|e]; cbn [fst snd].
      * split; [reflexivity|]. split.
        { intros other Hne. now rewrite !update_pdf_other. }
        left. exists x, n. rewrite !update_pdf_lookup, Hpdf. auto.
      * split; [reflexivity|]. split.
        { intros other Hne. unfold extract_failed. now rewrite !update_pdf_other. }
        right. exists e. eexists. unfold extract_failed, extraction_error.
        rewrite !update_pdf_lookup, Hpdf. cbn. repeat split.
    + cbn [fst snd]. split; [reflexivity|]. split.
      { intros other Hne. unfold extract_failed. now rewrite !update_pdf_other. }
      right. exists e. eexists. unfold extract_failed, extraction_error.
      rewrite !update_pdf_lookup, Hpdf. cbn. repeat split.
  - cbn [fst snd]. split; [reflexivity|]. split.
    { intros other Hne. unfold extract_failed. now rewrite !update_pdf_other. }
    right. exists e. eexists. unfold extract_failed, extraction_error.
    rewrite !update_pdf_lookup, Hpdf. cbn. repeat split.
Qed.

(** X6. [extract_text] on a stored document has two outcomes only. It
    returns the text, with the document [processing] and its page count
    set; or some step raised [e], and the document is [failed] with
    [str(e)] as its error and the progress it had, and what is raised is
    [HTTPException(500, "Error extracting text: " + str(e))]. Either way
    no Q&A row and no other document is touched. *)
Theorem extract_text_outcomes (pdf_id : string) (db : Session) (pdf : PDF.t) :
  pdfs db !! pdf_id = Some pdf ->
  let out := j_extract pdf_id db in
  qa_pairs (fst out) = qa_pairs db /\
  (forall other, other <> pdf_id -> pdfs (fst out) !! other = pdfs db !! other) /\
  ((exists text n,
      snd (snd out) = Ok text /\ count_pages (PDF.file_path pdf) = Ok n /\
      pdfs (fst out) !! pdf_id
        = Some (PDF.set_page_count n (PDF.set_status "processing" pdf))) \/
   (exists e pdf',
      snd (snd out) = Raise (HTTPException 500 ("Error extracting text: " +:+ exn_str e)) /\
      pdfs (fst out) !! pdf_id = Some pdf' /\
      PDF.status pdf' = "failed" /\ PDF.error pdf' = Some (exn_str e) /\
      PDF.progress pdf' = PDF.progress pdf)).
Proof. apply extract_text_cases. Qed.

(** The loop of the OCR path up to a page that is not recognised. *)
Lemma ocr_loop_fails pre : forall page_texts i text image post e,
  Forall2 (fun image t => image_to_string image = Ok t) pre page_texts ->
  image_to_string image = Raise e ->
  j_ocr_loop i (pre ++ image :: post) text
    = (ImageToString <$> seq i (S (length pre)), Raise e).
Proof.
  induction pre as [|im pre IH]; intros page_texts i text image post e Hpre Himg;
    inversion Hpre as [|? t ? rest Him Hrest]; subst; cbn [app ocr_loop].
  - rewrite Himg. reflexivity.
  - rewrite Him. cbn [call tbind].
    rewrite (IH rest (S i) _ image post e Hrest Himg). reflexivity.
Qed.

(** X7. The OCR path gives no partial text: when the pages before page
    [k] are recognised and page [k] is not, [_extract_with_ocr] raises
    that page's error, after the conversion and one recognition call for
    each page up to [k] and none for the pages after it. *)
Theorem ocr_stops_at_first_failure (file_path : string) (pre post : list Image)
        (image : Image) (page_texts : list string) (e : exn) :
  convert_from_path file_path = Ok (pre ++ image :: post) ->
  Forall2 (fun image t => image_to_string image = Ok t) pre page_texts ->
  image_to_string image = Raise e ->
  j_ocr file_path
    = (ConvertFromPath file_path :: (ImageToString <$> seq 0 (S (length pre))), Raise e).
Proof.
  intros Hconv Hpre Himg. unfold _extract_with_ocr, call, tbind. rewrite Hconv.
  rewrite (ocr_loop_fails pre page_texts 0%nat "" image post e Hpre Himg). reflexivity.
Qed.


End JobFacts.

(** ** More on stripping *)

Module StripFacts.
Import PyStr PyStrFacts.

Lemma lstrip_suffix l : exists pre, l = pre ++ lstrip l.
Proof.
  induction l as [|c l [pre IH]]; [now exists []|]. simpl.
  destruct (isspace c); [|now exists []].
  exists (c :: pre). simpl. now rewrite <- IH.
Qed.

Lemma lstrip_fixed l : lstrip l = [] \/ exists c l', lstrip l = c :: l' /\ isspace c = false.
Proof.
  induction l as [|c l IH]; [now left|]. simpl.
  destruct (isspace c) eqn:Hc; [exact IH|]. right. eauto.
Qed.

Lemma lstrip_idem l : lstrip (lstrip l) = lstrip l.
Proof.
  destruct (lstrip_fixed l) as [->|[c [l' [-> Hc]]]]; [reflexivity|].
  simpl. now rewrite Hc.
Qed.

Lemma lstrip_nil_blank l : lstrip l = [] -> Forall (fun c => isspace c = true) l.
Proof.
  induction l as [|c l IH]; [constructor|]. simpl.
  destruct (isspace c) eqn:Hc; [|discriminate]. intros H. constructor; auto.
Qed.

Lemma rstrip_prefix l : exists post, l = rstrip l ++ post.
Proof.
  unfold rstrip. destruct (lstrip_suffix (rev l)) as [pre H].
  exists (rev pre). apply (f_equal (@rev ascii)) in H.
  now rewrite rev_involutive, rev_app_distr in H.
Qed.

Lemma rstrip_idem l : rstrip (rstrip l) = rstrip l.
Proof. unfold rstrip. now rewrite rev_involutive, lstrip_idem. Qed.

(** [s.strip().strip() == s.strip()] *)
Lemma strip_chars_idem l : strip_chars (strip_chars l) = strip_chars l.
Proof.
  unfold strip_chars.
  assert (lstrip (rstrip (lstrip l)) = rstrip (lstrip l)) as ->; [|apply rstrip_idem].
  destruct (rstrip_prefix (lstrip l)) as [post Hpost].
  destruct (rstrip (lstrip l)) as [|c r] eqn:E; [reflexivity|].
  destruct (lstrip_fixed l) as [Hnil|[c' [l' [Hl Hc']]]].
  - rewrite Hnil in Hpost. discriminate.
  - rewrite Hl in Hpost. injection Hpost as <- _. simpl. now rewrite Hc'.
Qed.

Lemma strip_idem s : strip (strip s) = strip s.
Proof. unfold strip. now rewrite chars_text, strip_chars_idem. Qed.

Lemma strip_chars_nil_blank l :
  strip_chars l = [] -> Forall (fun c => isspace c = true) l.
Proof.
  unfold strip_chars, rstrip. intros H.
  apply (f_equal (@rev ascii)) in H. rewrite rev_involutive in H. cbn [rev] in H.
  apply lstrip_nil_blank in H. apply Forall_rev in H. rewrite rev_involutive in H.
  destruct (lstrip_fixed l) as [Hnil|[c [l' [Hl Hc]]]].
  - now apply lstrip_nil_blank.
  - rewrite Hl in H. inversion H; congruence.
Qed.

(** A text with a character that is not whitespace does not strip to
    the empty text. *)
Lemma strip_nonempty s c :
  c ∈ chars s -> isspace c = false -> strip s <> "".
Proof.
  intros Hin Hc E. unfold strip in E.
  apply (f_equal chars) in E. rewrite chars_text in E. cbn in E.
  apply strip_chars_nil_blank in E. rewrite Forall_forall in E.
  specialize (E c Hin). congruence.
Qed.

Lemma nonempty_spec s : TextService.nonempty s = true <-> s <> "".
Proof. destruct s; simpl; split; congruence. Qed.

(** A non-empty stripped text holds a character that is not whitespace. *)
Lemma stripped_has_char s :
  strip s <> "" -> exists c, c ∈ chars (strip s) /\ isspace c = false.
Proof.
  intros Hne. unfold strip in *. rewrite chars_text.
  unfold strip_chars in *.
  destruct (rstrip_prefix (lstrip (chars s))) as [post Hpost].
  destruct (rstrip (lstrip (chars s))) as [|c r] eqn:E; [now contradiction Hne|].
  destruct (lstrip_fixed (chars s)) as [Hnil|[c' [l' [Hl Hc']]]].
  - rewrite Hnil in Hpost. discriminate.
  - rewrite Hl in Hpost. injection Hpost as <- _. exists c'. split; [constructor|exact Hc'].
Qed.

End StripFacts.

(** ** More on the heading chunker *)

Module HeadingChunks.
Import PyStr PyStrFacts Re TextService StripFacts.

Definition state_ok (st : hstate) : Prop :=
  let '(chunks, _, current_heading) := st in
  Forall trimmed_chunk chunks /\
  Forall (fun c => content c <> "") chunks /\
  (current_heading = "Introduction" \/ strip current_heading = current_heading).

Lemma heading_step_ok text st m : state_ok st -> state_ok (heading_step text st m).
Proof.
  destruct st as [[chunks last_end] cur], m as [start stop].
  intros [Htrim [Hne Hcur]]. cbn [heading_step state_ok].
  split; [|split]; [| |right; apply strip_idem].
  - destruct (last_end <? start)%nat; [|exact Htrim].
    destruct (nonempty _) eqn:E; [|exact Htrim].
    apply Forall_app. split; [exact Htrim|]. constructor; [|constructor].
    split; [apply strip_idem | exact Hcur].
  - destruct (last_end <? start)%nat; [|exact Hne].
    destruct (nonempty _) eqn:E; [|exact Hne].
    apply Forall_app. split; [exact Hne|]. constructor; [|constructor].
    cbn [content]. now apply nonempty_spec.
Qed.

Lemma heading_fold_ok text ms : forall st,
  state_ok st -> state_ok (fold_left (heading_step text) ms st).
Proof.
  induction ms as [|m ms IH]; intros st Hst; [exact Hst|].
  cbn [fold_left]. apply IH. now apply heading_step_ok.
Qed.

Lemma chunks_of_matches_ok text ms :
  Forall trimmed_chunk (chunks_of_matches text ms) /\
  (forall front last, chunks_of_matches text ms = front ++ [last] ->
                      Forall (fun c => content c <> "") front).
Proof.
  unfold chunks_of_matches.
  pose proof (heading_fold_ok text ms ([], 0%nat, "Introduction")) as Hok.
  destruct (fold_left (heading_step text) ms ([], 0%nat, "Introduction"))
    as [[chunks last_end] cur].
  destruct Hok as [Htrim [Hne Hcur]].
  { cbn. repeat split; auto; constructor. }
  cbn [final_chunk]. destruct (Z.of_nat last_end <? len text).
  - split.
    + apply Forall_app. split; [exact Htrim|]. constructor; [|constructor].
      split; [apply strip_idem | exact Hcur].
    + intros front last E. apply app_inj_tail in E as [<- _]. exact Hne.
  - split; [exact Htrim|].
    intros front last E. rewrite E in Hne. now apply Forall_app in Hne as [Hne _].
Qed.

(** No heading pattern matches where no character can start a heading. *)
Lemma mark_facts c :
  heading_mark c = false ->
  Ascii.eqb c "#" = false /\ in_range "A" "Z" c = false /\
  Ascii.eqb c "C" = false /\ Ascii.eqb c "S" = false.
Proof.
  unfold heading_mark. intros H. apply orb_false_iff in H as [H1 H2].
  repeat split; auto.
  - destruct (Ascii.eqb_spec c "C"); [subst; discriminate H2 | reflexivity].
  - destruct (Ascii.eqb_spec c "S"); [subst; discriminate H2 | reflexivity].
Qed.

Lemma line_start_none (k : cont) pos rest :
  Forall (fun c => heading_mark c = false) rest ->
  (forall pos' rest', Forall (fun c => heading_mark c = false) rest' ->
                      k pos' rest' = None) ->
  rmatch nl_or_bol pos rest k = None.
Proof.
  intros Hrest Hk. unfold nl_or_bol. cbn [rmatch].
  assert (k pos rest = None) as Hhere by now apply Hk.
  destruct rest as [|c rest].
  - now destruct (Nat.eqb pos 0).
  - inversion Hrest as [|? ? Hc Hrest']; subst.
    destruct (atom_matches (ALit nl) c).
    + rewrite (Hk _ _ Hrest'). now destruct (Nat.eqb pos 0).
    + now destruct (Nat.eqb pos 0).
Qed.

Lemma no_heading_without_mark pos rest :
  Forall (fun c => heading_mark c = false) rest ->
  match_at combined_pattern pos rest = None.
Proof.
  intros Hrest. unfold match_at, combined_pattern. cbn [rmatch].
  assert (rmatch markdown_heading pos rest (fun e _ => Some e) = None) as ->.
  { unfold markdown_heading. cbn [seqs rmatch]. apply line_start_none; [exact Hrest|].
    intros pos' [|c rest'] H; [reflexivity|]. inversion H as [|? ? Hc _]; subst.
    destruct (mark_facts c Hc) as [E _]. cbn [atom_matches]. now rewrite E. }
  assert (rmatch chapter_heading pos rest (fun e _ => Some e) = None) as ->.
  { unfold chapter_heading. cbn [seqs rmatch]. apply line_start_none; [exact Hrest|].
    intros pos' [|c rest'] H; [reflexivity|]. inversion H as [|? ? Hc _]; subst.
    destruct (mark_facts c Hc) as [_ [_ [EC ES]]].
    cbn [lit chars list_ascii_of_string fmap list_fmap seqs rmatch compose atom_matches].
    now rewrite EC, ES. }
  unfold caps_heading. cbn [seqs rmatch]. apply line_start_none; [exact Hrest|].
  intros pos' [|c rest'] H; [reflexivity|]. inversion H as [|? ? Hc _]; subst.
  destruct (mark_facts c Hc) as [_ [E _]].
  cbn [atom_matches existsb citem_matches]. now rewrite E.
Qed.

Lemma scan_without_mark rest : forall pos,
  Forall (fun c => heading_mark c = false) rest ->
  scan combined_pattern pos rest 0 = [].
Proof.
  induction rest as [|c rest IH]; intros pos H; cbn [scan];
    rewrite (no_heading_without_mark _ _ H); [reflexivity|].
  apply IH. now inversion H.
Qed.

End HeadingChunks.

(** X9. Every chunk of the heading chunker has a content without
    surrounding whitespace and a heading that is [Introduction] or has
    none either, and every chunk but the last has a non-empty content. *)
Theorem heading_chunks_trimmed (text : string) :
  Forall trimmed_chunk (TextService.chunk_by_headings text) /\
  (forall front last,
     TextService.chunk_by_headings text = front ++ [last] ->
     Forall (fun c => content c <> "") front).
Proof. apply HeadingChunks.chunks_of_matches_ok. Qed.

(** X10. A non-empty text without a [#] and without a capital letter
    A..Z has no heading: the heading chunker returns the single chunk
    [Introduction] whose content is the stripped text. *)
Theorem plain_text_single_introduction (text : string) :
  text <> "" ->
  Forall (fun c => heading_mark c = false) (PyStr.chars text) ->
  TextService.chunk_by_headings text = [mkChunk "Introduction" (PyStr.strip text)].
Proof.
  intros Hne Hplain.
  unfold TextService.chunk_by_headings, TextService.chunks_of_matches, Re.finditer.
  rewrite HeadingChunks.scan_without_mark by exact Hplain.
  cbn [fold_left TextService.final_chunk].
  pose proof (HeadingFacts.len_pos text Hne).
  destruct (Z.ltb_spec (Z.of_nat 0) (PyStr.len text)) as [_|]; [|lia].
  change (Z.of_nat 0) with 0. now rewrite HeadingFacts.substr_all.
Qed.

Lemma plain_text_single_introduction_witness :
  TextService.chunk_by_headings "  the quick brown fox.  "
    = [mkChunk "Introduction" "the quick brown fox."].
Proof.
  apply (plain_text_single_introduction "  the quick brown fox.  ").
  - discriminate.
  - repeat constructor.
Defined.

(** ** More on the sized chunker *)

Module SizedChunks.
Import PyStr PyStrFacts TextService StripFacts.

(** The [k]-th index of a range. *)
Lemma range_go_lookup step stop : forall fuel i k j,
  range_go fuel i stop step !! k = Some j ->
  j = i + Z.of_nat k * step /\ j < stop.
Proof.
  induction fuel as [|fuel IH]; intros i k j H; [discriminate|].
  cbn [range_go] in H. destruct (Z.ltb_spec i stop) as [Hlt|]; [|discriminate].
  destruct k as [|k]; cbn in H.
  - injection H as <-. lia.
  - apply IH in H as [-> H]. lia.
Qed.

(** The tokens of the [k]-th chunk are the window at [k * step]. *)
Lemma chunk_window text max_tokens overlap chunks k c :
  overlap < max_tokens ->
  chunk_by_size text max_tokens overlap = Ok chunks ->
  chunks !! k = Some c ->
  let j := Z.of_nat k * (max_tokens - overlap) in
  j < Z.of_nat (length (split text)) /\
  tokens_of c = slice (split text) j (j + max_tokens).
Proof.
  intros Hstep Hchunks Hk. unfold chunk_by_size in Hchunks.
  destruct (Z.eqb_spec (max_tokens - overlap) 0); [lia|]. injection Hchunks as <-.
  pose proof (SizedFacts.fold_size_chunk_tokens (split text) max_tokens
                (split_tokens_words text)
                (range0 (Z.of_nat (length (split text))) (max_tokens - overlap)) [])
    as Hfold.
  cbn [fmap list_fmap app] in Hfold.
  apply (f_equal (fun l => l !! k)) in Hfold.
  rewrite !list_lookup_fmap, Hk in Hfold. cbn [fmap option_fmap option_map] in Hfold.
  unfold range0 in Hfold. destruct (Z.ltb_spec 0 (max_tokens - overlap)); [|lia].
  destruct (range_go _ 0 _ _ !! k) as [j|] eqn:Hj; [|discriminate].
  apply range_go_lookup in Hj as [-> Hlt]. cbn in Hfold. injection Hfold as Hc.
  cbn zeta. rewrite Z.add_0_l in *. split; [exact Hlt | exact Hc].
Qed.

Lemma join_no_newline ws :
  Forall word ws -> Forall (fun c => Ascii.eqb c nl = false) (join_chars [" "%char] ws).
Proof.
  assert (forall w, word w -> Forall (fun c => Ascii.eqb c nl = false) w) as Hw.
  { intros w [_ H]. eapply Forall_impl; [exact H|]. intros c Hc.
    destruct (Ascii.eqb_spec c nl); [subst; discriminate Hc | reflexivity]. }
  induction 1 as [|w ws Hword Hws IH]; [constructor|].
  destruct ws as [|w' ws]; [now apply Hw|].
  change (join_chars [" "%char] (w :: w' :: ws))
    with (w ++ " "%char :: join_chars [" "%char] (w' :: ws)).
  apply Forall_app. split; [now apply Hw|]. constructor; [reflexivity | exact IH].
Qed.

Lemma join_last ws :
  Forall word ws -> ws <> [] ->
  exists l c, join_chars [" "%char] ws = l ++ [c] /\ isspace c = false.
Proof.
  induction 1 as [|w ws Hword Hws IH]; [congruence|]. intros _.
  destruct ws as [|w' ws].
  - destruct Hword as [Hne Hw].
    destruct (StatusFacts.nonempty_last w Hne) as [l [c E]].
    exists l, c. split; [exact E|]. rewrite E in Hw.
    apply Forall_app in Hw as [_ Hw]. now inversion Hw.
  - destruct IH as [l [c [E Hc]]]; [congruence|].
    exists (w ++ " "%char :: l), c. split; [|exact Hc].
    change (join_chars [" "%char] (w :: w' :: ws))
      with (w ++ " "%char :: join_chars [" "%char] (w' :: ws)).
    rewrite E. now rewrite <- app_assoc.
Qed.

Lemma join_stripped ws :
  Forall word ws -> strip_chars (join_chars [" "%char] ws) = join_chars [" "%char] ws.
Proof.
  intros Hws. destruct ws as [|w ws]; [reflexivity|].
  destruct (join_last (w :: ws) Hws) as [l [c [E Hc]]]; [congruence|].
  inversion Hws as [|? ? [Hne Hw] _]; subst.
  destruct w as [|c1 w1]; [congruence|].
  assert (exists l1, join_chars [" "%char] ((c1 :: w1) :: ws) = c1 :: l1) as [l1 E1].
  { destruct ws; eexists; reflexivity. }
  apply (StatusFacts.strip_chars_ends _ c1 c l1 l); auto. now inversion Hw.
Qed.

(** A chunk text is one line, so the title search sees the chunk text
    itself and nothing else. *)
Lemma potential_title_one_line ts :
  Forall (fun t => word (chars t)) ts ->
  potential_title (join " " ts)
    = if is_title (join " " ts) then Some (join " " ts) else None.
Proof.
  intros Hts.
  assert (Forall word (chars <$> ts)) as Hws by now apply Forall_fmap.
  unfold potential_title.
  assert (split_on nl (join " " ts) = [join " " ts]) as ->.
  { unfold split_on, join at 1. rewrite chars_text.
    change (chars " ") with [" "%char].
    rewrite <- (app_nil_r (join_chars _ _)).
    rewrite StatusFacts.split_on_go_run by now apply join_no_newline.
    cbn [split_on_go fmap list_fmap]. rewrite app_nil_r, rev_involutive. reflexivity. }
  cbn [take fmap list_fmap].
  assert (strip (join " " ts) = join " " ts) as ->.
  { unfold strip, join. rewrite chars_text. change (chars " ") with [" "%char].
    now rewrite join_stripped. }
  rewrite filter_cons. destruct (decide (is_title (join " " ts) = true)) as [->|Hno].
  - reflexivity.
  - cbn. now destruct (is_title (join " " ts)).
Qed.

Definition heading_rule (k : nat) (c : Chunk) : Prop :=
  heading c = if is_title (content c) then content c
              else "Chunk " +:+ pretty (Z.of_nat k + 1).

Lemma fold_size_chunk_headings tokens max_tokens :
  Forall (fun t => word (chars t)) tokens ->
  forall idxs acc,
  (forall k c, acc !! k = Some c -> heading_rule k c) ->
  forall k c, fold_left (size_chunk tokens max_tokens) idxs acc !! k = Some c ->
              heading_rule k c.
Proof.
  intros Htok. induction idxs as [|i idxs IH]; intros acc Hacc; [exact Hacc|].
  cbn [fold_left]. apply IH. intros k c. unfold size_chunk.
  intros H. apply lookup_snoc_Some in H as [[_ H]|[-> <-]]; [now apply Hacc|].
  unfold heading_rule. cbn [heading content].
  rewrite potential_title_one_line.
  - now destruct (is_title _).
  - unfold slice. apply Forall_take, Forall_drop, Htok.
Qed.

End SizedChunks.

(** X11. With [0 < max_tokens] and [overlap < max_tokens], every chunk of
    the sized chunker holds at least one and at most [max_tokens] tokens. *)
Theorem sized_chunks_bounded (text : string) (max_tokens overlap : Z)
        (chunks : list Chunk) :
  0 < max_tokens -> overlap < max_tokens ->
  TextService.chunk_by_size text max_tokens overlap = Ok chunks ->
  Forall (fun c => 1 <= Z.of_nat (length (tokens_of c)) <= max_tokens) chunks.
Proof.
  intros Hmax Hstep Hchunks. apply Forall_lookup. intros k c Hk.
  destruct (SizedChunks.chunk_window text max_tokens overlap chunks k c
              Hstep Hchunks Hk) as [Hlt ->].
  assert (0 <= Z.of_nat k * (max_tokens - overlap)) as Hj by nia.
  revert Hlt Hj. generalize (Z.of_nat k * (max_tokens - overlap)). intros j Hlt Hj.
  rewrite SizedFacts.slice_window by lia.
  rewrite length_take, length_drop. lia.
Qed.

Lemma sized_chunks_bounded_witness :
  Forall (fun c => 1 <= Z.of_nat (length (tokens_of c)) <= 3)
         [mkChunk "Chunk 1" "a b c"; mkChunk "Chunk 2" "c d e"; mkChunk "Chunk 3" "e"].
Proof.
  apply (sized_chunks_bounded "a b  c d e" 3 1); [lia | lia | vm_compute; reflexivity].
Defined.

(** X12. With [0 <= overlap < max_tokens], consecutive chunks of the
    sized chunker overlap as configured: what is left of a chunk's tokens
    after its first [max_tokens - overlap] are the first [overlap] tokens
    of the next chunk. *)
Theorem sized_chunks_overlap (text : string) (max_tokens overlap : Z)
        (chunks : list Chunk) (k : nat) (c c' : Chunk) :
  0 <= overlap < max_tokens ->
  TextService.chunk_by_size text max_tokens overlap = Ok chunks ->
  chunks !! k = Some c ->
  chunks !! S k = Some c' ->
  drop (Z.to_nat (max_tokens - overlap)) (tokens_of c)
    = take (Z.to_nat overlap) (tokens_of c').
Proof.
  intros Hov Hchunks Hk Hk'.
  destruct (SizedChunks.chunk_window text max_tokens overlap chunks k c
              ltac:(lia) Hchunks Hk) as [_ ->].
  destruct (SizedChunks.chunk_window text max_tokens overlap chunks (S k) c'
              ltac:(lia) Hchunks Hk') as [_ ->].
  set (step := max_tokens - overlap).
  assert (0 <= Z.of_nat k * step) as Hj by (subst step; nia).
  replace (Z.of_nat (S k) * step) with (Z.of_nat k * step + step) by lia.
  revert Hj. generalize (Z.of_nat k * step). intros j Hj.
  rewrite !SizedFacts.slice_window by (subst step; lia).
  rewrite take_take, Nat.min_l by lia.
  replace (Z.to_nat (j + step)) with (Z.to_nat j + Z.to_nat step)%nat
    by (subst step; lia).
  rewrite <- drop_drop. generalize (drop (Z.to_nat j) (PyStr.split text)). intros l.
  replace (Z.to_nat max_tokens) with (Z.to_nat step + Z.to_nat overlap)%nat
    by (subst step; lia).
  now rewrite take_drop_commute.
Qed.

Lemma sized_chunks_overlap_witness :
  drop 2 (tokens_of (mkChunk "Chunk 1" "a b c"))
    = take 1 (tokens_of (mkChunk "Chunk 2" "c d e")).
Proof.
  apply (sized_chunks_overlap "a b  c d e" 3 1
           [mkChunk "Chunk 1" "a b c"; mkChunk "Chunk 2" "c d e"; mkChunk "Chunk 3" "e"]
           0%nat); [lia | vm_compute; reflexivity | reflexivity | reflexivity].
Defined.

(** X13. The heading of the [k]-th chunk of the sized chunker (counted
    from 1) is the chunk's whole content when that has more than 10 and
    fewer than 100 characters and ends in a colon or a full stop, and
    [Chunk k] otherwise: a chunk text is a single line, so no other line
    is ever found as a title. *)
Theorem sized_chunk_heading (text : string) (max_tokens overlap : Z)
        (chunks : list Chunk) (k : nat) (c : Chunk) :
  TextService.chunk_by_size text max_tokens overlap = Ok chunks ->
  chunks !! k = Some c ->
  heading c = if TextService.is_title (content c) then content c
              else "Chunk " +:+ pretty (Z.of_nat k + 1).
Proof.
  intros Hchunks Hk. unfold TextService.chunk_by_size in Hchunks.
  destruct (max_tokens - overlap =? 0); [discriminate|]. injection Hchunks as <-.
  eapply (SizedChunks.fold_size_chunk_headings (PyStr.split text) max_tokens
            (PyStrFacts.split_tokens_words text) _ []); [|exact Hk].
  intros k' c' H. discriminate H.
Qed.

Lemma sized_chunk_heading_witness :
  heading (mkChunk "Read this line first." "Read this line first.")
    = "Read this line first.".
Proof.
  apply (sized_chunk_heading "Read this line first. Then the rest" 4 0
           [mkChunk "Read this line first." "Read this line first.";
            mkChunk "Chunk 2" "Then the rest"] 0%nat);
    [vm_compute; reflexivity | reflexivity].
Defined.

(** ** The paragraph chunker *)

Module ParagraphChunks.
Import PyStr PyStrFacts TextService StripFacts.

Lemma chars_app s1 s2 : chars (s1 +:+ s2) = chars s1 ++ chars s2.
Proof.
  induction s1 as [|a s1 IH]; [reflexivity|].
  change (a :: chars (s1 +:+ s2) = a :: chars s1 ++ chars s2). now rewrite IH.
Qed.

Definition has_char (s : string) : Prop :=
  exists c, c ∈ chars s /\ isspace c = false.

Definition pstate_ok (st : list Chunk * string * string) : Prop :=
  let '(chunks, current_chunk, current_heading) := st in
  Forall paragraph_chunk chunks /\
  paragraph_heading current_heading /\
  (current_chunk = "" \/ has_char current_chunk).

Lemma emitted_ok current_chunk current_heading :
  has_char current_chunk -> paragraph_heading current_heading ->
  paragraph_chunk (mkChunk current_heading (strip current_chunk)).
Proof.
  intros [c [Hin Hc]] Hh. split; [|split]; cbn [content heading].
  - now apply (strip_nonempty _ c).
  - apply strip_idem.
  - exact Hh.
Qed.

Lemma paragraph_step_ok min_length st para :
  pstate_ok st -> pstate_ok (paragraph_step min_length st para).
Proof.
  destruct st as [[chunks cur] h]. intros [Hchunks [Hh Hcur]].
  unfold paragraph_step.
  destruct (nonempty (strip para)) eqn:Hne; cbn [negb]; [|now repeat split].
  apply nonempty_spec in Hne.
  destruct (_ && _) eqn:Hhead.
  - apply andb_true_iff in Hhead as [Hlen Hend]. apply Z.ltb_lt in Hlen.
    split; [exact Hchunks|]. split; [|now left].
    right. split; [exact Hlen|]. split; [exact Hend | apply strip_idem].
  - assert (has_char (cur +:+ strip para +:+ NL +:+ NL)) as Hnew.
    { destruct (stripped_has_char para Hne) as [c [Hin Hc]]. exists c.
      split; [|exact Hc]. rewrite !chars_app.
      apply elem_of_app. right. apply elem_of_app. now left. }
    destruct (min_length <=? _).
    + split; [|split; [exact Hh | now left]].
      apply Forall_app. split; [exact Hchunks|].
      constructor; [now apply emitted_ok | constructor].
    + split; [exact Hchunks|]. split; [exact Hh | now right].
Qed.

Lemma paragraph_fold_ok min_length paras : forall st,
  pstate_ok st -> pstate_ok (fold_left (paragraph_step min_length) paras st).
Proof.
  induction paras as [|p paras IH]; intros st Hst; [exact Hst|].
  cbn [fold_left]. apply IH. now apply paragraph_step_ok.
Qed.

End ParagraphChunks.

(** X14. Every chunk of the paragraph chunker has a non-empty content
    without surrounding whitespace, and its heading is [Text] or a
    stripped paragraph of fewer than 100 characters that ends in a colon
    or a full stop. *)
Theorem paragraph_chunks_wellformed (text : string) (min_length : Z) :
  Forall paragraph_chunk (TextService.chunk_by_paragraphs text min_length).
Proof.
  unfold TextService.chunk_by_paragraphs.
  pose proof (ParagraphChunks.paragraph_fold_ok min_length
                (TextService.re_split TextService.blank_line text) ([], "", "Text")) as Hok.
  destruct (fold_left _ _ _) as [[chunks cur] h].
  destruct Hok as [Hchunks [Hh Hcur]].
  { split; [constructor|]. split; [now left | now left]. }
  destruct (TextService.nonempty cur) eqn:Hne; [|exact Hchunks].
  apply StripFacts.nonempty_spec in Hne. destruct Hcur as [->|Hcur]; [congruence|].
  apply Forall_app. split; [exact Hchunks|].
  constructor; [now apply ParagraphChunks.emitted_ok | constructor].
Qed.

(** ** Cancellation, accepted *)

Section CancelFacts.

Variable json_loads : string -> result json.
Variable scaled_progress : Z -> Z -> Z.

Local Abbreviation c_run := (generate_qa_from_chunks json_loads scaled_progress).

(** X15. The cancellation endpoint accepts a request exactly when the
    stored status is one of [processing], [uploaded], [extracting],
    [analyzing]. An accepted request sets the status to [canceled] and the
    error text and nothing else (the stored progress stays; only the reply
    says 0); after it a generation run over a non-empty chunk sequence
    returns at once with no write, and a second request is rejected. Any
    other status is rejected with HTTP 400 and no write. *)
Theorem cancel_accepts_exactly (pdf_id : string) (db : Session) (pdf : PDF.t) :
  pdfs db !! pdf_id = Some pdf ->
  let out := cancel_pdf_processing pdf_id db in
  (PDF.status pdf ∈ ["processing"; "uploaded"; "extracting"; "analyzing"] ->
   snd out = Ok (PDFStatus.mk (PDF.id pdf) "canceled" 0 "PDF processing has been canceled") /\
   pdfs (fst out) !! pdf_id
     = Some (PDF.set_error "Processing was canceled by the user"
               (PDF.set_status "canceled" pdf)) /\
   progress_of pdf_id (fst out) = Some (PDF.progress pdf) /\
   qa_pairs (fst out) = qa_pairs db /\
   (forall provider environ net during chunk rest,
      c_run provider environ net during (chunk :: rest) pdf_id (fst out)
        = (fst out, Ok [])) /\
   cancel_pdf_processing pdf_id (fst out)
     = (fst out, Raise (HTTPException 400 "PDF is not being processed"))) /\
  (PDF.status pdf ∉ ["processing"; "uploaded"; "extracting"; "analyzing"] ->
   out = (db, Raise (HTTPException 400 "PDF is not being processed"))).
Proof.
  intros Hpdf out. subst out. split.
  - intros Hin.
    set (db' := update_pdf pdf_id
                  (fun p => PDF.set_error "Processing was canceled by the user"
                              (PDF.set_status "canceled" p)) db).
    assert (cancel_pdf_processing pdf_id db
            = (db', Ok (PDFStatus.mk (PDF.id pdf) "canceled" 0
                          "PDF processing has been canceled"))) as ->.
    { unfold cancel_pdf_processing. rewrite Hpdf.
      now rewrite bool_decide_eq_true_2 by exact Hin. }
    cbn [fst snd].
    assert (pdfs db' !! pdf_id
            = Some (PDF.set_error "Processing was canceled by the user"
                      (PDF.set_status "canceled" pdf))) as Hpdf'
      by (unfold db'; now rewrite update_pdf_lookup, Hpdf).
    split; [reflexivity|]. split; [exact Hpdf'|].
    split; [unfold progress_of; now rewrite Hpdf'|].
    split; [reflexivity|]. split.
    + intros provider environ net during chunk rest.
      unfold generate_qa_from_chunks. rewrite Hpdf'. cbn [qa_loop]. now rewrite Hpdf'.
    + unfold cancel_pdf_processing. rewrite Hpdf'. reflexivity.
  - intros Hnot. unfold cancel_pdf_processing. rewrite Hpdf.
    now rewrite bool_decide_eq_false_2 by exact Hnot.
Qed.

End CancelFacts.

Lemma cancel_accepts_exactly_witness :
  status_of "d1" (fst (cancel_pdf_processing "d1" (store "uploaded" 0))) = Some "canceled" /\
  cancel_pdf_processing "d1" (store "completed" 100)
    = (store "completed" 100, Raise (HTTPException 400 "PDF is not being processed")).
Proof.
  assert (forall s p, pdfs (store s p) !! "d1" = Some (doc s p)) as Hpdf
    by (intros; apply lookup_singleton_eq).
  split.
  - pose proof (cancel_accepts_exactly json_loads_examples scaled_progress_exact
                  "d1" (store "uploaded" 0) (doc "uploaded" 0) (Hpdf _ _)) as [H _].
    destruct H as [_ [H _]].
    + cbn. apply list_elem_of_further, list_elem_of_here.
    + unfold status_of. now rewrite H.
  - pose proof (cancel_accepts_exactly json_loads_examples scaled_progress_exact
                  "d1" (store "completed" 100) (doc "completed" 100) (Hpdf _ _)) as [_ H].
    apply H. cbn. intros Hin.
    repeat (apply elem_of_cons in Hin as [Hin|Hin]; [discriminate Hin|]).
    now apply elem_of_nil in Hin.
Defined.

(** ** The API key settings *)

Section SettingsFacts.

Variable json_loads : string -> result json.

Lemma prefix_nonempty p s : p <> "" -> String.prefix p s = true -> s <> "".
Proof. intros Hp H ->. destruct p; [congruence | discriminate]. Qed.

Lemma env_key_set_present environ :
  env_key_set environ = true <-> key_present environ.
Proof.
  unfold env_key_set, key_present. split.
  - destruct (environ !! "ANTHROPIC_API_KEY") as [[|a k]|]; try discriminate.
    intros _. exists (String a k). split; [reflexivity | discriminate].
  - intros [k [-> Hk]]. destruct k; [congruence | reflexivity].
Qed.

(** X16. [save_api_key] refuses a key that does not start with [sk-] with
    HTTP 400 and no write. A key that does (and holds no NUL character) is
    stored in the settings table and in the environment, other variables
    untouched; afterwards the key status is set and the hosted backend no
    longer raises its configuration error, whatever the network returns. *)
Theorem save_api_key_round_trip (apiKey : string) (cfg : Config) :
  (String.prefix "sk-" apiKey = false ->
   save_api_key apiKey cfg = (cfg, Raise (HTTPException 400 "Invalid API key format"))) /\
  (String.prefix "sk-" apiKey = true -> has_nul apiKey = false ->
   let cfg' := fst (save_api_key apiKey cfg) in
   snd (save_api_key apiKey cfg) = Ok tt /\
   environ_of cfg' !! "ANTHROPIC_API_KEY" = Some apiKey /\
   settings_of cfg' !! "anthropic_api_key" = Some apiKey /\
   (forall name, name <> "ANTHROPIC_API_KEY" ->
                 environ_of cfg' !! name = environ_of cfg !! name) /\
   get_api_key_status cfg' = true /\
   (forall post text_chunk context,
      exists pairs,
        _generate_with_claude json_loads (environ_of cfg') post text_chunk context
          = Ok pairs)).
Proof.
  unfold save_api_key, putenv. split.
  - intros ->. reflexivity.
  - intros Hprefix Hnul. rewrite Hprefix, Hnul.
    cbn [negb fst snd environ_of settings_of].
    assert (apiKey <> "") as Hne by (apply (prefix_nonempty "sk-"); [discriminate | exact Hprefix]).
    assert (key_present (<["ANTHROPIC_API_KEY" := apiKey]> (environ_of cfg))) as Hkey.
    { exists apiKey. split; [apply lookup_insert_eq | exact Hne]. }
    repeat split.
    + apply lookup_insert_eq.
    + apply lookup_insert_eq.
    + intros name Hname. apply lookup_insert_ne. congruence.
    + unfold get_api_key_status. cbn [environ_of].
      now rewrite (proj2 (env_key_set_present _) Hkey).
    + intros post text_chunk context.
      rewrite (claude_with_key json_loads _ _ _ _ Hkey).
      destruct (claude_try _ _ _); eexists; reflexivity.
Qed.

(** X17. A saved key survives a restart: when the process starts with no
    key in its environment, [load_api_key_to_env] puts the key that
    [save_api_key] stored in the settings table back into the environment;
    and when the environment already holds a key, it changes nothing. *)
Theorem stored_key_survives_restart (apiKey : string) (cfg : Config)
        (fresh : gmap string string) :
  (String.prefix "sk-" apiKey = true -> has_nul apiKey = false ->
   env_key_set fresh = false ->
   let restarted := mkConfig fresh (settings_of (fst (save_api_key apiKey cfg))) in
   environ_of (load_api_key_to_env restarted) !! "ANTHROPIC_API_KEY" = Some apiKey /\
   key_present (environ_of (load_api_key_to_env restarted))) /\
  (env_key_set (environ_of cfg) = true -> load_api_key_to_env cfg = cfg).
Proof.
  split.
  - intros Hprefix Hnul Hfresh. cbn zeta.
    assert (apiKey <> "") as Hne by (apply (prefix_nonempty "sk-"); [discriminate | exact Hprefix]).
    unfold save_api_key, putenv. rewrite Hprefix, Hnul.
    cbn [negb fst settings_of]. unfold load_api_key_to_env.
    cbn [environ_of settings_of]. rewrite Hfresh, lookup_insert_eq.
    assert (TextService.nonempty apiKey = true) as ->
      by (destruct apiKey; [congruence | reflexivity]).
    unfold putenv. rewrite Hnul. cbn [environ_of].
    split; [apply lookup_insert_eq|].
    exists apiKey. split; [apply lookup_insert_eq | exact Hne].
  - intros Hset. unfold load_api_key_to_env. now rewrite Hset.
Qed.

End SettingsFacts.

Lemma save_api_key_round_trip_witness :
  environ_of (fst (save_api_key "sk-test" (mkConfig ∅ ∅))) !! "ANTHROPIC_API_KEY"
    = Some "sk-test" /\
  save_api_key "test" (mkConfig ∅ ∅)
    = (mkConfig ∅ ∅, Raise (HTTPException 400 "Invalid API key format")).
Proof.
  pose proof (save_api_key_round_trip json_loads_examples "sk-test" (mkConfig ∅ ∅))
    as [_ Hok].
  pose proof (save_api_key_round_trip json_loads_examples "test" (mkConfig ∅ ∅))
    as [Hbad _].
  split.
  - apply Hok; reflexivity.
  - apply Hbad. reflexivity.
Defined.

Lemma stored_key_survives_restart_witness :
  environ_of (load_api_key_to_env
                (mkConfig ∅ (settings_of (fst (save_api_key "sk-test" (mkConfig ∅ ∅))))))
    !! "ANTHROPIC_API_KEY" = Some "sk-test".
Proof.
  pose proof (stored_key_survives_restart "sk-test" (mkConfig ∅ ∅) ∅) as [H _].
  apply H; reflexivity.
Defined.

(** ** The section of the returned pairs *)

Section StampFacts.

Variable json_loads : string -> result json.





End StampFacts.

(** ** The further properties at concrete inputs *)


Lemma failed_calls_one_row_per_chunk_witness :
  snd (generate_qa_from_chunks json_loads_examples scaled_progress_exact
         "ollama" ∅ offline (cancel_requests (fun _ => true) "d1")
         [mkChunk "# Intro" "Hello world."; mkChunk "# Details" "More text here."]
         "d1" (store "processing" 50))
  = Ok (error_rows "d1" (fun _ => ExternalError "All connection attempts failed") 0
          [mkChunk "# Intro" "Hello world."; mkChunk "# Details" "More text here."]).
Proof.
  pose proof (failed_calls_one_row_per_chunk json_loads_examples scaled_progress_exact
                "ollama" ∅ offline (fun _ => true)
                (fun _ => ExternalError "All connection attempts failed")
                [mkChunk "# Intro" "Hello world."; mkChunk "# Details" "More text here."]
                "d1" (store "processing" 50) (doc "processing" 50)) as H.
  cbv zeta in H. apply H.
  - left; reflexivity.
  - apply lookup_singleton_eq.
  - discriminate.
  - intros i. left. reflexivity.
Defined.


Lemma extract_text_outcomes_witness :
  pdfs (fst (extract_text string scan_pdfminer scan_convert scan_ocr scan_count scan_write
                          "d1" (store "uploaded" 0))) !! "d1"
  = Some (PDF.set_page_count 2 (PDF.set_status "processing" (doc "uploaded" 0))).
Proof.
  pose proof (extract_text_outcomes string scan_pdfminer scan_convert scan_ocr
                scan_count scan_write "d1" (store "uploaded" 0) (doc "uploaded" 0)
                (lookup_singleton_eq _ _)) as H.
  cbv zeta in H. destruct H as [_ [_ [[text [n [_ [Hn Hpdf]]]] | [e [pdf' [Hraise _]]]]]].
  - injection Hn as <-. exact Hpdf.
  - vm_compute in Hraise. discriminate Hraise.
Defined.

Lemma ocr_stops_at_first_failure_witness :
  _extract_with_ocr string smudged_convert smudged_ocr "storage/pdfs/d1.pdf"
  = ([ConvertFromPath "storage/pdfs/d1.pdf"; ImageToString 0; ImageToString 1],
     Raise (ExternalError "tesseract failed")).
Proof.
  apply (ocr_stops_at_first_failure string smudged_convert smudged_ocr
           "storage/pdfs/d1.pdf" ["first page"] ["third page"] "smudge" ["first page"]).
  - reflexivity.
  - repeat constructor.
  - reflexivity.
Defined.



Lemma heading_chunks_trimmed_witness :
  Forall (fun c => content c <> "")
         [mkChunk "# Intro" "Hello world."].
Proof.
  destruct (heading_chunks_trimmed intro_details) as [_ H].
  apply (H [mkChunk "# Intro" "Hello world."] (mkChunk "# Details" "More text here.")).
  vm_compute. reflexivity.
Defined.

(** ** The span that the local backend decodes *)

Module SpanFacts.

Lemma find_go_spec c l : forall i,
  ((c ∉ l) /\ PyObj.find_go c l i = -1) \/
  (exists before after, l = before ++ c :: after /\ (c ∉ before) /\
                        PyObj.find_go c l i = i + Z.of_nat (length before)).
Proof.
  induction l as [|x l IH]; intros i; cbn [PyObj.find_go].
  - left. split; [apply not_elem_of_nil | reflexivity].
  - destruct (Ascii.eqb x c) eqn:E.
    + apply Ascii.eqb_eq in E. subst x. right. exists [], l.
      split; [reflexivity|]. split; [apply not_elem_of_nil | cbn; lia].
    + apply Ascii.eqb_neq in E. destruct (IH (i + 1)) as [[Hno Hr] | [b [a [-> [Hno Hr]]]]].
      * left. split; [|exact Hr]. rewrite not_elem_of_cons. split; congruence.
      * right. exists (x :: b), a. split; [reflexivity|]. split.
        { rewrite not_elem_of_cons. split; congruence. }
        rewrite Hr. cbn [length]. lia.
Qed.

Lemma rfind_go_spec c l : forall i last,
  ((c ∉ l) /\ PyObj.rfind_go c l i last = last) \/
  (exists before after, l = before ++ c :: after /\ (c ∉ after) /\
                        PyObj.rfind_go c l i last = i + Z.of_nat (length before)).
Proof.
  induction l as [|x l IH]; intros i last; cbn [PyObj.rfind_go].
  - left. split; [apply not_elem_of_nil | reflexivity].
  - destruct (IH (i + 1) (if Ascii.eqb x c then i else last))
      as [[Hno Hr] | [b [a [-> [Hno Hr]]]]].
    + destruct (Ascii.eqb x c) eqn:E.
      * apply Ascii.eqb_eq in E. subst x. right. exists [], l.
        split; [reflexivity|]. split; [exact Hno | rewrite Hr; cbn; lia].
      * apply Ascii.eqb_neq in E. left. split; [|exact Hr].
        rewrite not_elem_of_cons. split; congruence.
    + right. exists (x :: b), a. split; [reflexivity|]. split; [exact Hno|].
      rewrite Hr. cbn [length]. lia.
Qed.

(** The first occurrence is before every other one, the last one after. *)
Lemma first_is_least {A} (c : A) b a pre post :
  b ++ c :: a = pre ++ c :: post -> c ∉ b -> (length b <= length pre)%nat.
Proof.
  intros Heq Hno. destruct (decide (length pre < length b)%nat) as [Hlt|]; [|lia].
  exfalso. apply Hno. apply (list_elem_of_lookup_2 _ (length pre)).
  rewrite <- (lookup_app_l b (c :: a)) by exact Hlt.
  rewrite Heq. apply list_lookup_middle. reflexivity.
Qed.

Lemma last_is_greatest {A} (c : A) b a pre post :
  b ++ c :: a = pre ++ c :: post -> c ∉ a -> (length pre <= length b)%nat.
Proof.
  intros Heq Hno. destruct (decide (length b < length pre)%nat) as [Hlt|]; [|lia].
  exfalso. apply Hno. apply (list_elem_of_lookup_2 _ (length pre - length b - 1)).
  assert ((b ++ c :: a) !! length pre = Some c) as H
    by (rewrite Heq; apply list_lookup_middle; reflexivity).
  rewrite lookup_app_r in H by lia.
  replace (length pre - length b)%nat with (S (length pre - length b - 1)) in H by lia.
  exact H.
Qed.

Lemma split_between {A} (c d : A) b1 a1 b2 a2 :
  b1 ++ c :: a1 = b2 ++ d :: a2 -> (length b1 < length b2)%nat ->
  exists inner, b2 = b1 ++ c :: inner /\ a1 = inner ++ d :: a2.
Proof.
  revert b2. induction b1 as [|x b1 IH]; intros [|y b2] Heq Hlt; cbn in *; try lia.
  - injection Heq as <- ->. now exists b2.
  - injection Heq as <- Heq. destruct (IH b2 Heq) as [inner [-> ->]]; [lia|].
    now exists inner.
Qed.

Lemma slice_middle {A} (b m a : list A) :
  PyStr.slice (b ++ m ++ a) (Z.of_nat (length b)) (Z.of_nat (length b + length m)) = m.
Proof.
  unfold PyStr.slice, PyStr.norm_index. rewrite !length_app.
  assert ((Z.of_nat (length b) <? 0) = false) as -> by (apply Z.ltb_ge; lia).
  assert ((Z.of_nat (length b + length m) <? 0) = false) as -> by (apply Z.ltb_ge; lia).
  rewrite !Z.min_l by lia. rewrite Nat2Z.id.
  replace (Z.to_nat (Z.of_nat (length b + length m) - Z.of_nat (length b)))
    with (length m) by lia.
  rewrite drop_app_length. apply take_app_length.
Qed.

End SpanFacts.

(** X19. The local backend decodes the span of the reply from its first
    [[] to its last []]: when [clean_json] returns, the reply is some text
    without a [[], the returned span, and some text without a []], and the
    span opens with [[] and closes with []]; and it raises the [ValueError]
    exactly when no [[] of the reply has a []] after it. *)
Theorem ollama_span_is_outermost_brackets (g : string) :
  match clean_json (JStr g) with
  | Ok span =>
      exists before inner after,
        PyStr.chars g = before ++ PyStr.chars span ++ after /\
        PyStr.chars span = "["%char :: inner ++ ["]"%char] /\
        ("["%char ∉ before) /\ ("]"%char ∉ after)
  | Raise e =>
      e = ValueError "Could not find valid JSON in response" /\
      forall before inner after,
        PyStr.chars g <> before ++ "["%char :: inner ++ "]"%char :: after
  end.
Proof.
  unfold clean_json, PyObj.find, PyObj.rfind, PyStr.substr.
  set (l := PyStr.chars g).
  destruct (SpanFacts.find_go_spec "["%char l 0) as [[Hno ->] | [b1 [a1 [Hl1 [Hno1 ->]]]]].
  - cbn [Z.leb andb]. split; [reflexivity|]. intros before inner after Heq.
    apply Hno. rewrite Heq. rewrite elem_of_app, elem_of_cons. auto.
  - destruct (SpanFacts.rfind_go_spec "]"%char l 0 (-1))
      as [[Hno ->] | [b2 [a2 [Hl2 [Hno2 ->]]]]].
    + assert ((0 + Z.of_nat (length b1) <? -1 + 1) = false) as -> by (apply Z.ltb_ge; lia).
      rewrite andb_false_r. split; [reflexivity|]. intros before inner after Heq.
      apply Hno. rewrite Heq. rewrite elem_of_app, !elem_of_cons, elem_of_app, elem_of_cons.
      auto.
    + assert (length b1 <> length b2) as Hne.
      { intros Hlen.
        assert (l !! length b1 = Some "["%char) as H1
          by (rewrite Hl1; apply list_lookup_middle; reflexivity).
        assert (l !! length b1 = Some "]"%char) as H2
          by (rewrite Hl2; apply list_lookup_middle; congruence).
        rewrite H1 in H2. discriminate H2. }
      destruct (decide (length b1 < length b2)%nat) as [Hlt|Hge].
      * assert ((0 <=? 0 + Z.of_nat (length b1))
                && (0 + Z.of_nat (length b1) <? 0 + Z.of_nat (length b2) + 1) = true) as ->
          by (apply andb_true_iff; split; [apply Z.leb_le | apply Z.ltb_lt]; lia).
        rewrite PyStrFacts.chars_text.
        destruct (SpanFacts.split_between "["%char "]"%char b1 a1 b2 a2) as [inner [-> ->]];
          [congruence | exact Hlt |].
        exists b1, inner, a2.
        assert (PyStr.slice l (0 + Z.of_nat (length b1))
                            (0 + Z.of_nat (length (b1 ++ "["%char :: inner)) + 1)
                = "["%char :: inner ++ ["]"%char]) as ->.
        { rewrite Hl1.
          replace (b1 ++ "["%char :: inner ++ "]"%char :: a2)
            with (b1 ++ ("["%char :: inner ++ ["]"%char]) ++ a2)
            by (cbn; now rewrite <- app_assoc).
          replace (0 + Z.of_nat (length b1)) with (Z.of_nat (length b1)) by lia.
          replace (0 + Z.of_nat (length (b1 ++ "["%char :: inner)) + 1)
            with (Z.of_nat (length b1 + length ("["%char :: inner ++ ["]"%char])))
            by (rewrite !length_app; cbn [length]; rewrite length_app; cbn [length]; lia).
          apply SpanFacts.slice_middle. }
        split; [|split; [reflexivity | split; assumption]].
        rewrite Hl1. cbn. now rewrite <- app_assoc.
      * assert ((0 <=? 0 + Z.of_nat (length b1))
                && (0 + Z.of_nat (length b1) <? 0 + Z.of_nat (length b2) + 1) = false) as ->
          by (apply andb_false_iff; right; apply Z.ltb_ge; lia).
        split; [reflexivity|]. intros before inner after Heq.
        assert (length b1 <= length before)%nat as H1.
        { apply (SpanFacts.first_is_least "["%char b1 a1 before (inner ++ "]"%char :: after));
            [congruence | exact Hno1]. }
        assert (length (before ++ "["%char :: inner) <= length b2)%nat as H2.
        { apply (SpanFacts.last_is_greatest "]"%char b2 a2 (before ++ "["%char :: inner) after);
            [|exact Hno2].
          rewrite <- Hl2, Heq. cbn. now rewrite <- app_assoc. }
        rewrite length_app in H2. cbn [length] in H2. lia.
Qed.
